(** * Distill Webhook Visualiser: the startup hook and the cache warmer

    A shallow embedding of [src/backend/main.py]: the background task
    [background_cache_warmer] (lines 57-73) and the startup hook
    [startup_event] (lines 76-153), followed by the properties the
    specification states about them.

    Time is a logical clock counted in the unit of [asyncio.sleep]'s
    argument.  The collaborators that live outside [main.py]
    ([get_cached_rates], the [sqlite3] driver, the ORM session,
    [User.hash_password]) are inputs of the model. *)

From Stdlib Require Import Ascii String List Arith Bool Lia.
Import ListNotations.
Open Scope string_scope.
Open Scope list_scope.
Open Scope nat_scope.

(* ===================================================================== *)
(** ** The fragment of Python the source relies on *)
(* ===================================================================== *)

Module Py.

(** The class of a raised object.  The first four derive from
    [BaseException] only ([CancelledError] since Python 3.8); every other
    class the program meets derives from [Exception]. *)
Inductive exc_class : Type :=
| SystemExit
| KeyboardInterrupt
| GeneratorExit
| CancelledError
| ExceptionClass (name : string).

(** [issubclass(c, Exception)] *)
Definition issubclass_Exception (c : exc_class) : bool :=
  match c with
  | ExceptionClass _ => true
  | _ => false
  end.

(** A raised object: its class and [str(e)], which the f-strings print. *)
Record exc : Type := Exc { exc_cls : exc_class; exc_str : string }.

(** What [except Exception] tests. *)
Definition isinstance_Exception (e : exc) : bool :=
  issubclass_Exception (exc_cls e).

(** How a call or an [await] concludes. *)
Inductive outcome (A : Type) : Type :=
| Returned (a : A)
| Raised (e : exc).

Arguments Returned {A} a.
Arguments Raised {A} e.

End Py.

(* ===================================================================== *)
(** ** [background_cache_warmer] *)
(* ===================================================================== *)

Module Warmer.

(** [await asyncio.sleep(5)], line 62. *)
Definition startup_delay : nat := 5.

(** [await asyncio.sleep(60)], line 73. *)
Definition refresh_delay : nat := 60.

(** Line 68. *)
Definition refreshed_line : string := "✓ DEX funding rates cache refreshed".

(** Line 70: [f"⚠ Failed to refresh DEX cache: {e}"]. *)
Definition failed_line (e : Py.exc) : string :=
  ("⚠ Failed to refresh DEX cache: " ++ Py.exc_str e)%string.

(** The program points at which the coroutine is suspended, and the state
    it is left in when an exception leaves the loop. *)
Inductive pc : Type :=
| AtGraceSleep
| AtFetch
| AtIntervalSleep
| Exited (e : Py.exc).

Section WithValue.

(** What [get_cached_rates] returns; the loop discards it. *)
Context {V : Type}.

(** One [await get_cached_rates(force_refresh=True)] as the loop sees it:
    the call concludes [duration] units after it began, by returning or by
    raising. *)
Record call : Type := Call { duration : nat; result : Py.outcome V }.

(** A concluded attempt, kept for the timeline. *)
Record attempt : Type :=
  Attempt { started : nat; ended : nat; concluded : Py.outcome V }.

Record state : Type := State {
  at_pc : pc;
  clock : nat;
  stdout : list string;
  history : list attempt
}.

Definition init : state := State AtGraceSleep 0 [] [].

Definition sleep (n : nat) (next : pc) (s : state) : state :=
  State next (clock s + n) (stdout s) (history s).

(** Lines 65-70, once the awaited call has concluded. *)
Definition await_fetch (c : call) (s : state) : state :=
  let t := clock s + duration c in
  let h := history s ++ [Attempt (clock s) t (result c)] in
  match result c with
  | Py.Returned _ =>
      State AtIntervalSleep t (stdout s ++ [refreshed_line]) h
  | Py.Raised e =>
      if Py.isinstance_Exception e
      then State AtIntervalSleep t (stdout s ++ [failed_line e]) h
      else State (Exited e) t (stdout s) h
  end.

Inductive progress : Type :=
| Next (s : state)
| Blocked
| Finished (e : Py.exc).

(** One resumption of the coroutine.  [env k] is the behaviour of the
    [k]-th awaited call ([k] counted from 0); [None] is a call that never
    concludes. *)
Definition step (env : nat -> option call) (s : state) : progress :=
  match at_pc s with
  | AtGraceSleep => Next (sleep startup_delay AtFetch s)
  | AtFetch =>
      match env (length (history s)) with
      | Some c => Next (await_fetch c s)
      | None => Blocked
      end
  | AtIntervalSleep => Next (sleep refresh_delay AtFetch s)
  | Exited e => Finished e
  end.

(** The coroutine resumed at most [fuel] times. *)
Fixpoint exec (fuel : nat) (env : nat -> option call) (s : state) : state :=
  match fuel with
  | O => s
  | S fuel' =>
      match step env s with
      | Next s' => exec fuel' env s'
      | Blocked | Finished _ => s
      end
  end.

(** The task line 82 creates, resumed at most [fuel] times. *)
Definition background_cache_warmer (fuel : nat) (env : nat -> option call) : state :=
  exec fuel env init.

(** The loop about to make its [n]-th attempt (counted from 0): the grace
    sleep, then [n] times a fetch and an interval sleep. *)
Definition before_attempt (n : nat) (env : nat -> option call) : state :=
  background_cache_warmer (1 + 2 * n) env.

(** The last attempt of a history, if any. *)
Definition final (h : list attempt) : option attempt :=
  nth_error h (length h - 1).

(** Consecutive attempts are one refresh delay apart, the later starting
    that long after the earlier ended. *)
Definition evenly_spaced (h : list attempt) : Prop :=
  forall k a b,
    nth_error h k = Some a -> nth_error h (S k) = Some b ->
    started b = ended a + refresh_delay.

(** What holds of the coroutine whenever it is suspended. *)
Definition loop_invariant (s : state) : Prop :=
  evenly_spaced (history s)
  /\ match at_pc s with
     | AtGraceSleep => history s = []
     | AtFetch => forall a, final (history s) = Some a -> clock s = ended a + refresh_delay
     | AtIntervalSleep => exists a, final (history s) = Some a /\ clock s = ended a
     | Exited _ => True
     end.

(** A call the loop survives: it returns, or raises an instance of
    [Exception]. *)
Definition survivable (c : call) : bool :=
  match result c with
  | Py.Returned _ => true
  | Py.Raised e => Py.isinstance_Exception e
  end.

End WithValue.

Arguments call V : clear implicits.
Arguments attempt V : clear implicits.
Arguments state V : clear implicits.
Arguments progress V : clear implicits.

End Warmer.

(* ===================================================================== *)
(** ** [startup_event] *)
(* ===================================================================== *)

Module Startup.

(** A row of the user table, with the fields line 133 sets. *)
Record User : Type :=
  mkUser { username : string; password_hash : string; is_active : bool }.

(** What the hook reads and writes.  [sqlite] is [data/monitoring.db] as
    the [sqlite3] connection of the migration block sees it; the block's
    statements name [alert_configs] and [alert_configs_new] only, so the
    user table is kept apart: [users] are its committed rows and [pending]
    the objects added to the open ORM session. *)
Record world (DB : Type) : Type := World {
  out : list string;
  environ : string -> option string;
  tables_created : bool;
  tasks : list string;
  sqlite : DB;
  users : list User;
  pending : list User
}.

Arguments World {DB}.
Arguments out {DB}.
Arguments environ {DB}.
Arguments tables_created {DB}.
Arguments tasks {DB}.
Arguments sqlite {DB}.
Arguments users {DB}.
Arguments pending {DB}.

(** Statements run against a world and conclude by returning or raising;
    what they changed before raising stays changed. *)
Definition M (W A : Type) : Type := W -> Py.outcome A * W.

Definition ret {W A : Type} (a : A) : M W A := fun w => (Py.Returned a, w).

Definition raise {W A : Type} (e : Py.exc) : M W A := fun w => (Py.Raised e, w).

Definition bind {W A B : Type} (m : M W A) (k : A -> M W B) : M W B :=
  fun w =>
    match m w with
    | (Py.Returned a, w') => k a w'
    | (Py.Raised e, w') => (Py.Raised e, w')
    end.

Declare Scope py_scope.
Delimit Scope py_scope with py.
Notation "x <- m ;; k" := (bind m (fun x => k))
  (at level 61, m at next level, right associativity) : py_scope.
Notation "m ;; k" := (bind m (fun _ => k))
  (at level 61, right associativity) : py_scope.
Open Scope py_scope.

(** [try: body except Exception as e: handler(e)] *)
Definition try_except_Exception {W A : Type}
  (body : M W A) (handler : Py.exc -> M W A) : M W A :=
  fun w =>
    match body w with
    | (Py.Returned a, w') => (Py.Returned a, w')
    | (Py.Raised e, w') =>
        if Py.isinstance_Exception e then handler e w' else (Py.Raised e, w')
    end.

(** [try: body finally: cleanup] *)
Definition try_finally {W A : Type} (body : M W A) (cleanup : M W unit) : M W A :=
  fun w =>
    match body w with
    | (r, w') =>
        match cleanup w' with
        | (Py.Returned _, w'') => (r, w'')
        | (Py.Raised e, w'') => (Py.Raised e, w'')
        end
    end.

(** [for x in l: body(x)] *)
Fixpoint for_each {W A : Type} (l : list A) (body : A -> M W unit) : M W unit :=
  match l with
  | [] => ret tt
  | x :: rest => body x ;; for_each rest body
  end.

(** *** The [sqlite3] module *)

(** What a [sqlite3] call raises: an instance of [sqlite3.Error] or
    [sqlite3.Warning] (both derive from [Exception]), given by the name of
    its class and its message. *)
Record sqlite3_error : Type :=
  SqliteError { error_class : string; error_message : string }.

Definition to_exc (e : sqlite3_error) : Py.exc :=
  Py.Exc (Py.ExceptionClass (error_class e)) (error_message e).

(** The calls of the migration block on the database they work on.  Each
    may fail; the connection and its cursor are part of [DB].  [fetchall]
    gives the rows of the last statement, a row being the list of its
    fields. *)
Record sqlite3_driver (DB : Type) : Type := Driver {
  connect : string -> DB -> (sqlite3_error + unit) * DB;
  cursor : DB -> (sqlite3_error + unit) * DB;
  execute : string -> DB -> (sqlite3_error + unit) * DB;
  fetchall : DB -> (sqlite3_error + list (list string)) * DB;
  commit : DB -> (sqlite3_error + unit) * DB;
  close : DB -> (sqlite3_error + unit) * DB
}.

Arguments Driver {DB}.
Arguments connect {DB}.
Arguments cursor {DB}.
Arguments execute {DB}.
Arguments fetchall {DB}.
Arguments commit {DB}.
Arguments close {DB}.

Section Hook.

Context {DB : Type}.

(** The driver the block talks to. *)
Variable sql : sqlite3_driver DB.

(** [User.hash_password] of [app.models.database]. *)
Variable hash_password : string -> string.

Definition with_sqlite (d : DB) (w : world DB) : world DB :=
  World (out w) (environ w) (tables_created w) (tasks w) d (users w) (pending w).

Definition with_users (committed staged : list User) (w : world DB) : world DB :=
  World (out w) (environ w) (tables_created w) (tasks w) (sqlite w) committed staged.

(** A driver call as a statement of the hook. *)
Definition lift {A : Type} (op : DB -> (sqlite3_error + A) * DB) : M (world DB) A :=
  fun w =>
    match op (sqlite w) with
    | (inr a, d) => (Py.Returned a, with_sqlite d w)
    | (inl e, d) => (Py.Raised (to_exc e), with_sqlite d w)
    end.

(** [print(line)] *)
Definition print (line : string) : M (world DB) unit :=
  fun w =>
    (Py.Returned tt,
     World (out w ++ [line]) (environ w) (tables_created w) (tasks w)
           (sqlite w) (users w) (pending w)).

(** [os.getenv(name, default)] *)
Definition getenv (name default : string) : M (world DB) string :=
  fun w =>
    (Py.Returned match environ w name with Some v => v | None => default end, w).

(** [create_tables()], line 79. *)
Definition create_tables : M (world DB) unit :=
  fun w =>
    (Py.Returned tt,
     World (out w) (environ w) true (tasks w) (sqlite w) (users w) (pending w)).

(** [asyncio.create_task(coroutine)], line 82. *)
Definition create_task (coroutine : string) : M (world DB) unit :=
  fun w =>
    (Py.Returned tt,
     World (out w) (environ w) (tables_created w) (tasks w ++ [coroutine])
           (sqlite w) (users w) (pending w)).

(** [[col[1] for col in rows]], line 90. *)
Fixpoint second_fields (rows : list (list string)) : M (world DB) (list string) :=
  match rows with
  | [] => ret []
  | col :: rest =>
      match nth_error col 1 with
      | Some name => names <- second_fields rest ;; ret (name :: names)
      | None => raise (Py.Exc (Py.ExceptionClass "IndexError") "tuple index out of range")
      end
  end.

(** The statements of lines 93-109, their layout apart. *)
Definition create_alert_configs_new : string :=
  "CREATE TABLE alert_configs_new (monitor_id TEXT PRIMARY KEY, upper_threshold REAL, lower_threshold REAL, alert_level TEXT DEFAULT 'medium', created_at TIMESTAMP, updated_at TIMESTAMP)".

Definition copy_alert_configs : string :=
  "INSERT INTO alert_configs_new (monitor_id, upper_threshold, lower_threshold, alert_level, created_at, updated_at) SELECT monitor_id, upper_threshold, lower_threshold, alert_level, created_at, updated_at FROM alert_configs".

(** Lines 87-112: the body of the [try]. *)
Definition migration_body : M (world DB) unit :=
  lift (connect sql "data/monitoring.db") ;;
  lift (cursor sql) ;;
  lift (execute sql "PRAGMA table_info(alert_configs)") ;;
  rows <- lift (fetchall sql) ;;
  columns <- second_fields rows ;;
  (if existsb (String.eqb "formula") columns
   then
     lift (execute sql create_alert_configs_new) ;;
     lift (execute sql copy_alert_configs) ;;
     lift (execute sql "DROP TABLE alert_configs") ;;
     lift (execute sql "ALTER TABLE alert_configs_new RENAME TO alert_configs") ;;
     lift (commit sql) ;;
     print "✓ Removed formula column from alert_configs"
   else ret tt) ;;
  lift (close sql).

(** Lines 86-114. *)
Definition migration : M (world DB) unit :=
  try_except_Exception migration_body
    (fun e => print ("Migration note: " ++ Py.exc_str e)%string).

(** [get_db_session()], line 117: a session with nothing added to it. *)
Definition get_db_session : M (world DB) unit :=
  fun w => (Py.Returned tt, with_users (users w) [] w).

(** [db.query(User).count()], line 119: the rows the session sees, those
    it has added included. *)
Definition query_User_count : M (world DB) nat :=
  fun w => (Py.Returned (length (users w) + length (pending w)), w).

(** [db.add(user)], line 138. *)
Definition db_add (u : User) : M (world DB) unit :=
  fun w => (Py.Returned tt, with_users (users w) (pending w ++ [u]) w).

(** [db.commit()], line 140. *)
Definition db_commit : M (world DB) unit :=
  fun w => (Py.Returned tt, with_users (users w ++ pending w) [] w).

(** [db.close()], line 143: what was added and not committed is dropped. *)
Definition db_close : M (world DB) unit :=
  fun w => (Py.Returned tt, with_users (users w) [] w).

(** Lines 117-143. *)
Definition seed_users : M (world DB) unit :=
  get_db_session ;;
  try_finally
    (user_count <- query_User_count ;;
     if Nat.eqb user_count 0
     then
       ramu_pwd <- getenv "RAMU_PASSWORD" "changeme" ;;
       ligigy_pwd <- getenv "LIGIGY_PASSWORD" "changeme" ;;
       quasi_pwd <- getenv "QUASI_PASSWORD" "changeme" ;;
       let initial_users :=
         [("ramu", ramu_pwd); ("ligigy", ligigy_pwd); ("quasi", quasi_pwd)] in
       for_each initial_users
         (fun '(name, password) => db_add (mkUser name (hash_password password) true)) ;;
       db_commit ;;
       print "👤 Created initial users: ramu, ligigy, quasi"
     else ret tt)
    db_close.

(** Lines 145-153. *)
Definition announce : M (world DB) unit :=
  domain <- getenv "DOMAIN" "localhost" ;;
  port <- getenv "PORT" "8000" ;;
  let protocol := if String.eqb domain "localhost" then "http" else "https" in
  let base_url :=
    (if String.eqb domain "localhost"
     then "http://localhost:" ++ port
     else protocol ++ "://" ++ domain)%string in
  print "🚀 Distill Webhook Visualiser started successfully!" ;;
  print ("📡 Webhook endpoint: " ++ base_url ++ "/webhook/distill")%string ;;
  print ("🌐 Dashboard: " ++ base_url ++ "/")%string ;;
  print ("📚 API Docs: " ++ base_url ++ "/docs")%string.

(** Lines 77-153. *)
Definition startup_event : M (world DB) unit :=
  create_tables ;;
  create_task "background_cache_warmer" ;;
  migration ;;
  seed_users ;;
  announce.

(** The lines [announce] prints in world [w]. *)
Definition announcement (w : world DB) : list string :=
  out (snd (announce (World [] (environ w) (tables_created w) (tasks w)
                            (sqlite w) (users w) (pending w)))).

(** Lines 79-82, which precede the migration block. *)
Definition prelude : M (world DB) unit :=
  create_tables ;;
  create_task "background_cache_warmer".

(** The rows line 126 lists, as lines 133-137 build them. *)
Definition initial_rows (w : world DB) : list User :=
  let pwd name := match environ w name with Some v => v | None => "changeme" end in
  [mkUser "ramu" (hash_password (pwd "RAMU_PASSWORD")) true;
   mkUser "ligigy" (hash_password (pwd "LIGIGY_PASSWORD")) true;
   mkUser "quasi" (hash_password (pwd "QUASI_PASSWORD")) true].

End Hook.

(** A statement that raises instances of [Exception] only. *)
Definition raises_Exceptions_only {W A : Type} (m : M W A) : Prop :=
  forall w e w', m w = (Py.Raised e, w') -> Py.isinstance_Exception e = true.

(** A statement that leaves the user table, the open session and the
    environment as they were. *)
Definition keeps_users {DB A : Type} (m : M (world DB) A) : Prop :=
  forall w,
    users (snd (m w)) = users w
    /\ pending (snd (m w)) = pending w
    /\ environ (snd (m w)) = environ w.

End Startup.

(* ===================================================================== *)
(** ** RateCache *)
(* ===================================================================== *)

(** [get_cached_rates] and the cache behind it are in [app.api.dex], which
    is not part of [main.py]; this module follows sections 3 and 4.1 of the
    specification. *)
Module RateCache.

(** Modelled from the spec: [payload], an opaque mapping of instrument
    identifier to funding-rate value (the module [app.api.dex] that builds
    it is missing). *)
Definition Payload : Type := list (string * string).

(** Modelled from the spec: RateSnapshot of section 3 ([app.api.dex] is
    missing). *)
Record RateSnapshot : Type := Snapshot {
  payload : Payload;
  fetchedAt : nat;
  source : string
}.

(** Modelled from the spec: the kinds of TransientFetchError of section 7,
    "network, timeout, bad response" ([app.api.dex] is missing). *)
Inductive ErrorKind : Type := Network | Timeout | BadResponse.

(** Modelled from the spec: [lastError], "kind + message + timestamp"
    ([app.api.dex] is missing). *)
Record FetchError : Type := Error {
  kind : ErrorKind;
  message : string;
  failedAt : nat
}.

(** Modelled from the spec: CacheState of section 3 ([app.api.dex] is
    missing). *)
Record CacheState : Type := Cache {
  current : option RateSnapshot;
  lastError : option FetchError;
  inFlight : bool
}.

(** Modelled from the spec: "CacheState is created empty at process start"
    ([app.api.dex] is missing). *)
Definition empty : CacheState := Cache None None false.

(** Modelled from the spec: [read() -> RateSnapshot | absent], "returns the
    current snapshot immediately" ([app.api.dex] is missing). *)
Definition read (st : CacheState) : option RateSnapshot := current st.

(** Modelled from the spec: [publish(snapshot)], "replaces [current],
    clears [lastError]" ([app.api.dex] is missing). *)
Definition publish (s : RateSnapshot) (st : CacheState) : CacheState :=
  Cache (Some s) None (inFlight st).

(** Modelled from the spec: [record_failure(error)], "sets [lastError],
    leaves [current] untouched" ([app.api.dex] is missing). *)
Definition record_failure (e : FetchError) (st : CacheState) : CacheState :=
  Cache (current st) (Some e) (inFlight st).

(** Modelled from the spec: the gate, "true while a fetch is executing"
    ([app.api.dex] is missing). *)
Definition set_inFlight (b : bool) (st : CacheState) : CacheState :=
  Cache (current st) (lastError st) b.

(** Modelled from the spec: the process-wide cache with the clock that
    stamps [fetchedAt] and a count of the snapshots published so far
    ([app.api.dex] is missing). *)
Record system : Type := System {
  cache : CacheState;
  now : nat;
  published : nat
}.

(** Modelled from the spec: what happens to the cache over the life of the
    process: time passes, a fetch begins behind the gate, the fetch in
    flight succeeds or fails, a reader reads ([app.api.dex] is missing). *)
Inductive event : Type :=
| Elapse (dt : nat)
| BeginFetch
| FetchSucceeded (p : Payload) (src : string)
| FetchFailed (k : ErrorKind) (msg : string)
| Read.

(** Modelled from the spec: "mutated exclusively by the single
    fetch-completion path": success publishes a snapshot stamped with the
    time of the successful fetch, failure records the error, and both
    release the gate ([app.api.dex] is missing). *)
Definition apply (sys : system) (ev : event) : system :=
  match ev with
  | Elapse dt => System (cache sys) (now sys + dt) (published sys)
  | BeginFetch =>
      if inFlight (cache sys) then sys
      else System (set_inFlight true (cache sys)) (now sys) (published sys)
  | FetchSucceeded p src =>
      if inFlight (cache sys)
      then System (set_inFlight false (publish (Snapshot p (now sys) src) (cache sys)))
                  (now sys) (S (published sys))
      else sys
  | FetchFailed k msg =>
      if inFlight (cache sys)
      then System (set_inFlight false (record_failure (Error k msg (now sys)) (cache sys)))
                  (now sys) (published sys)
      else sys
  | Read => sys
  end.

(** Modelled from the spec: the cache after a sequence of events
    ([app.api.dex] is missing). *)
Definition run (evs : list event) (sys : system) : system :=
  fold_left apply evs sys.

(** Modelled from the spec: the cache at process start ([app.api.dex] is
    missing). *)
Definition start : system := System empty 0 0.

(** Modelled from the spec: an event that is a successful fetch
    ([app.api.dex] is missing). *)
Definition is_success (ev : event) : bool :=
  match ev with
  | FetchSucceeded _ _ => true
  | _ => false
  end.

(** Two invariants of [system]: the current snapshot was fetched no later
    than now, and nothing is current exactly when nothing was ever
    published. *)
Definition stamped_in_the_past (sys : system) : Prop :=
  forall s, current (cache sys) = Some s -> fetchedAt s <= now sys.

Definition absent_iff_unpublished (sys : system) : Prop :=
  current (cache sys) = None <-> published sys = 0.

End RateCache.

(* ===================================================================== *)
(** ** What a reader sees while the warmer runs *)
(* ===================================================================== *)

Module Timeline.

Section View.

(** The snapshot type [get_cached_rates] returns and the cache it keeps:
    [succeed] is what a returning call has done to the cache, [fail] what a
    raising call has done to it at the given time. *)
Context {V Cache : Type}.
Variable empty : Cache.
Variable succeed : V -> Cache -> Cache.
Variable fail : Py.exc -> nat -> Cache -> Cache.

(** The effect of a concluded attempt of the warmer on the cache, seen by
    a reader at time [t]: none while the attempt has not ended. *)
Definition settle (t : nat) (c : Cache) (a : Warmer.attempt V) : Cache :=
  if Warmer.ended a <=? t
  then
    match Warmer.concluded a with
    | Py.Returned v => succeed v c
    | Py.Raised e => fail e (Warmer.ended a) c
    end
  else c.

(** The cache at time [t], given the warmer's attempts. *)
Definition view_at (t : nat) (h : list (Warmer.attempt V)) : Cache :=
  fold_left (settle t) h empty.

End View.

(** The cache of the specification behind the warmer: a returning call has
    published the snapshot it returns, a raising call has recorded the
    failure. *)
Definition rate_cache_at (t : nat) (h : list (Warmer.attempt RateCache.RateSnapshot))
  : RateCache.CacheState :=
  view_at RateCache.empty RateCache.publish
    (fun e at_time =>
       RateCache.record_failure (RateCache.Error RateCache.Network (Py.exc_str e) at_time))
    t h.

End Timeline.

(* ===================================================================== *)
(** ** Upstream behaviours used as examples *)
(* ===================================================================== *)

Module Scenario.

Import Warmer.

Definition timed_out : Py.exc :=
  Py.Exc (Py.ExceptionClass "TimeoutError") "upstream timed out".

(** The [k]-th call takes [k] units; every second call times out. *)
Definition flaky_source (k : nat) : option (call unit) :=
  Some (Call k (if Nat.even k then Py.Returned tt else Py.Raised timed_out)).

Definition S1 : RateCache.RateSnapshot :=
  RateCache.Snapshot [("BTC-PERP", "0.0001"); ("ETH-PERP", "-0.0002")] 65 "dex".

(** The first call fails after [d1] units, the second returns [S1] after
    [d2] units; nothing is said of later calls. *)
Definition fails_then_succeeds (d1 d2 : nat) (k : nat)
  : option (call RateCache.RateSnapshot) :=
  match k with
  | 0 => Some (Call d1 (Py.Raised timed_out))
  | 1 => Some (Call d2 (Py.Returned S1))
  | _ => None
  end.

(** A database file that cannot be opened: [sqlite3.connect] raises. *)
Definition unopenable : Startup.sqlite3_driver unit :=
  Startup.Driver
    (fun _ d => (inl (Startup.SqliteError "sqlite3.OperationalError"
                        "unable to open database file"), d))
    (fun d => (inr tt, d))
    (fun _ d => (inr tt, d))
    (fun d => (inr [], d))
    (fun d => (inr tt, d))
    (fun d => (inr tt, d)).

(** A database whose [alert_configs] still has the [formula] column and in
    which [alert_configs_new] was left behind by an earlier run: the state
    is the list of statements executed so far. *)
Definition half_migrated : Startup.sqlite3_driver (list string) :=
  Startup.Driver
    (fun _ d => (inr tt, d))
    (fun d => (inr tt, d))
    (fun stmt d =>
       if String.prefix "CREATE TABLE alert_configs_new" stmt
       then (inl (Startup.SqliteError "sqlite3.OperationalError"
                    "table alert_configs_new already exists"), d)
       else (inr tt, d ++ [stmt]))
    (fun d => (inr [["0"; "monitor_id"; "TEXT"; "0"; ""; "1"];
                    ["1"; "formula"; "TEXT"; "0"; ""; "0"]], d))
    (fun d => (inr tt, d))
    (fun d => (inr tt, d)).

(** A process started with no environment variable set and a user table
    holding [rows]. *)
Definition fresh_world {DB : Type} (d : DB) (rows : list Startup.User)
  : Startup.world DB :=
  Startup.World [] (fun _ => None) false [] d rows [].

End Scenario.

(* ===================================================================== *)
(** ** The settings read from the environment *)
(* ===================================================================== *)

Module Config.

(** [os.getenv(name, default)] in the environment [environ]. *)
Definition getenv (environ : string -> option string) (name default : string) : string :=
  match environ name with
  | Some v => v
  | None => default
  end.

(** [s.split(sep)] for a separator of one character: the pieces between
    its occurrences, empty pieces kept.  A comma is one byte in UTF-8 and
    no part of another character, so the pieces are those Python cuts. *)
Fixpoint split (sep : ascii) (s : string) : list string :=
  match s with
  | EmptyString => [EmptyString]
  | String c rest =>
      if Ascii.eqb c sep
      then EmptyString :: split sep rest
      else
        match split sep rest with
        | piece :: pieces => String c piece :: pieces
        | [] => [String c EmptyString]
        end
  end.

(** [c in s] and [s.count(c)]. *)
Fixpoint contains (c : ascii) (s : string) : bool :=
  match s with
  | EmptyString => false
  | String c' rest => Ascii.eqb c' c || contains c rest
  end.

Fixpoint count (c : ascii) (s : string) : nat :=
  match s with
  | EmptyString => 0
  | String c' rest => (if Ascii.eqb c' c then 1 else 0) + count c rest
  end.

Definition comma : ascii := ","%char.

(** Line 35. *)
Definition domain (environ : string -> option string) : string :=
  getenv environ "DOMAIN" "localhost".

(** Line 36, the string that is split. *)
Definition cors_setting (environ : string -> option string) : string :=
  getenv environ "CORS_ORIGINS"
    ("https://" ++ domain environ ++ ",http://localhost:3000,http://127.0.0.1:3000")%string.

(** Line 36: the origins handed to [CORSMiddleware]. *)
Definition cors_origins (environ : string -> option string) : list string :=
  split comma (cors_setting environ).

(** Lines 145-148: the address the startup hook announces. *)
Definition base_url (environ : string -> option string) : string :=
  let domain := getenv environ "DOMAIN" "localhost" in
  let port := getenv environ "PORT" "8000" in
  let protocol := if String.eqb domain "localhost" then "http" else "https" in
  (if String.eqb domain "localhost"
   then "http://localhost:" ++ port
   else protocol ++ "://" ++ domain)%string.

(** An environment given by its variables. *)
Fixpoint environment (vars : list (string * string)) (name : string) : option string :=
  match vars with
  | [] => None
  | (k, v) :: rest => if String.eqb k name then Some v else environment rest name
  end.

End Config.

(* ===================================================================== *)
(** ** The calls the migration block makes *)
(* ===================================================================== *)

Module Tracing.

Import Startup.

(** A call of the block on the [sqlite3] module, a connection or a
    cursor. *)
Inductive sqlite3_call : Type :=
| Connect (database : string)
| Cursor
| Execute (statement : string)
| Fetchall
| Commit
| Close.

(** The calls made so far, in order, each with whether it returned. *)
Definition log : Type := list (sqlite3_call * bool).

Definition succeeded {A : Type} (r : sqlite3_error + A) : bool :=
  match r with
  | inr _ => true
  | inl _ => false
  end.

(** A driver call that also notes itself in the log. *)
Definition recorded {DB A : Type} (what : sqlite3_call)
  (op : DB -> (sqlite3_error + A) * DB) (dl : DB * log)
  : (sqlite3_error + A) * (DB * log) :=
  let (r, d) := op (fst dl) in
  (r, (d, snd dl ++ [(what, succeeded r)])).

(** The driver [sql] with every call noted; it behaves as [sql] does. *)
Definition recording {DB : Type} (sql : sqlite3_driver DB) : sqlite3_driver (DB * log) :=
  Driver
    (fun database => recorded (Connect database) (connect sql database))
    (recorded Cursor (cursor sql))
    (fun statement => recorded (Execute statement) (execute sql statement))
    (recorded Fetchall (fetchall sql))
    (recorded Commit (commit sql))
    (recorded Close (close sql)).

(** The world without the log. *)
Definition erase {DB : Type} (w : world (DB * log)) : world DB :=
  World (out w) (environ w) (tables_created w) (tasks w)
        (fst (sqlite w)) (users w) (pending w).

Definition calls {DB : Type} (w : world (DB * log)) : log := snd (sqlite w).

(** Lines 87-90: the calls that inspect [alert_configs]. *)
Definition inspection : list sqlite3_call :=
  [Connect "data/monitoring.db"; Cursor;
   Execute "PRAGMA table_info(alert_configs)"; Fetchall].

(** Lines 93-110: the calls that rebuild it without the column. *)
Definition rebuild : list sqlite3_call :=
  [Execute create_alert_configs_new; Execute copy_alert_configs;
   Execute "DROP TABLE alert_configs";
   Execute "ALTER TABLE alert_configs_new RENAME TO alert_configs";
   Commit].

(** The two ways through the block when no call fails. *)
Definition plain_run : list sqlite3_call := inspection ++ [Close].
Definition rebuilding_run : list sqlite3_call := inspection ++ rebuild ++ [Close].

(** Whether the rows [PRAGMA table_info] gave list a column named
    [formula] (lines 90-91). *)
Definition lists_formula (rows : list (list string)) : bool :=
  existsb (fun col => match nth_error col 1 with
                      | Some name => String.eqb "formula" name
                      | None => false
                      end) rows.

(** Line 111 and line 114. *)
Definition removed_line : string := "✓ Removed formula column from alert_configs".

Definition note_line (e : Py.exc) : string :=
  ("Migration note: " ++ Py.exc_str e)%string.

(** Line 141. *)
Definition created_line : string := "👤 Created initial users: ramu, ligigy, quasi".

Definition returned (c : sqlite3_call) : sqlite3_call * bool := (c, true).

Definition failed (c : sqlite3_call) : sqlite3_call * bool := (c, false).

(** The ways the block can go: the calls it made and the lines it
    printed.  The flag says whether it found the [formula] column. *)
Inductive outcome : bool -> log -> list string -> Prop :=
| Nothing_to_do :
    outcome false (map returned plain_run) []
| Rebuilt :
    outcome true (map returned rebuilding_run) [removed_line]
| Failed_inspecting n c e :
    nth_error inspection n = Some c ->
    outcome false (map returned (firstn n inspection) ++ [failed c]) [note_line e]
| Bad_row e :
    outcome false (map returned inspection) [note_line e]
| Failed_closing e :
    outcome false (map returned inspection ++ [failed Close]) [note_line e]
| Failed_rebuilding n c e :
    nth_error rebuild n = Some c ->
    outcome true (map returned (inspection ++ firstn n rebuild) ++ [failed c]) [note_line e]
| Failed_closing_rebuilt e :
    outcome true (map returned (inspection ++ rebuild) ++ [failed Close])
            [removed_line; note_line e].

(** A world with an empty log attached. *)
Definition attach {DB : Type} (v : world DB) : world (DB * log) :=
  World (out v) (environ v) (tables_created v) (tasks v)
        (sqlite v, []) (users v) (pending v).

(** A statement run with the recording driver does what the statement run
    with the driver itself does. *)
Definition simulates {DB A : Type}
  (m' : M (world (DB * log)) A) (m : M (world DB) A) : Prop :=
  forall w, m (erase w) = (fst (m' w), erase (snd (m' w))).

(** A statement that does nothing but print and use the database. *)
Definition prints_and_queries_only {DB A : Type} (m : M (world DB) A) : Prop :=
  forall w, exists lines d,
    snd (m w) = World (out w ++ lines) (environ w) (tables_created w) (tasks w)
                      d (users w) (pending w).

(** A database already migrated: [alert_configs] has no [formula]
    column.  The state counts the calls made. *)
Definition migrated : sqlite3_driver nat :=
  Driver
    (fun _ d => (inr tt, S d))
    (fun d => (inr tt, S d))
    (fun _ d => (inr tt, S d))
    (fun d => (inr [["0"; "monitor_id"; "TEXT"; "0"; ""; "1"];
                    ["1"; "upper_threshold"; "REAL"; "0"; ""; "0"]], S d))
    (fun d => (inr tt, S d))
    (fun d => (inr tt, S d)).

End Tracing.

(* ===================================================================== *)
(** ** The lines the warmer prints *)
(* ===================================================================== *)

Module WarmerLog.

Import Warmer.

Section WithValue.

Context {V : Type}.

(** What lines 68-70 print for a concluded attempt: nothing when the
    exception left the loop. *)
Definition line_of (a : attempt V) : list string :=
  match concluded a with
  | Py.Returned _ => [refreshed_line]
  | Py.Raised e => if Py.isinstance_Exception e then [failed_line e] else []
  end.

Definition lines_of (h : list (attempt V)) : list string := flat_map line_of h.

(** The printed lines are those of the attempts. *)
Definition log_invariant (s : state V) : Prop :=
  stdout s = lines_of (history s)
  /\ match at_pc s with
     | Exited _ => S (length (stdout s)) = length (history s)
     | _ => length (stdout s) = length (history s)
     end.

(** When attempts start and end. *)
Definition timing_invariant (s : state V) : Prop :=
  (forall a, In a (history s) -> started a <= ended a)
  /\ (forall a, nth_error (history s) 0 = Some a -> started a = startup_delay)
  /\ match at_pc s with
     | AtGraceSleep => clock s = 0 /\ history s = []
     | AtFetch => history s = [] -> clock s = startup_delay
     | AtIntervalSleep | Exited _ => history s <> []
     end.

End WithValue.

End WarmerLog.

(* ===================================================================== *)
(** ** The fetch path of the specification *)
(* ===================================================================== *)

(** The timeout, the forced refresh and the gate are in [app.api.dex],
    which is not part of [main.py]; these modules follow sections 4.1, 5
    and 6 of the specification. *)
Module FetchPath.

Import RateCache.

(** Modelled from the spec: what RateSource's [fetch()] gives, a snapshot's
    content or a failure "with a transient-error kind" ([app.api.dex] is
    missing). *)
Inductive reply : Type :=
| Rates (p : Payload) (src : string)
| Broken (k : ErrorKind) (msg : string).

(** Modelled from the spec: one upstream call, with the time it takes to
    answer; [None] is "a hung upstream call" ([app.api.dex] is missing). *)
Record upstream : Type := Upstream { takes : option nat; replies : reply }.

(** Modelled from the spec: "a fetch exceeding the configured per-fetch
    timeout" ([app.api.dex] is missing). *)
Definition exceeds (timeout : nat) (u : upstream) : bool :=
  match takes u with
  | Some d => timeout <? d
  | None => true
  end.

(** Modelled from the spec: "A bounded per-fetch timeout is applied ...; on
    timeout the fetch is treated as a failure": the time the fetch takes
    and what it gives ([app.api.dex] is missing). *)
Definition bounded_fetch (timeout : nat) (u : upstream) : nat * reply :=
  match takes u with
  | Some d =>
      if timeout <? d then (timeout, Broken Timeout "fetch timed out")
      else (d, replies u)
  | None => (timeout, Broken Timeout "fetch timed out")
  end.

(** Modelled from the spec: the fetch-completion path, which publishes on
    success and records the failure otherwise ([app.api.dex] is
    missing). *)
Definition completion (r : reply) : event :=
  match r with
  | Rates p src => FetchSucceeded p src
  | Broken k msg => FetchFailed k msg
  end.

(** Modelled from the spec: a refresh: the fetch begins behind the gate,
    takes its time and completes ([app.api.dex] is missing). *)
Definition refresh (timeout : nat) (u : upstream) : list event :=
  [BeginFetch; Elapse (fst (bounded_fetch timeout u));
   completion (snd (bounded_fetch timeout u))].

(** Modelled from the spec: the failure outcome a caller gets when the
    refresh failed and there is no snapshot to fall back on
    ([app.api.dex] is missing). *)
Definition no_data (e : option FetchError) : Py.exc :=
  Py.Exc (Py.ExceptionClass "TransientFetchError")
         match e with
         | Some err => message err
         | None => ""
         end.

(** Modelled from the spec: what a caller of [get_or_refresh] is handed
    once the refresh has completed: "the resulting snapshot - which may be
    the previous snapshot if the refresh fails and one already existed"
    ([app.api.dex] is missing). *)
Definition handed (sys : system) : Py.outcome RateSnapshot :=
  match read (cache sys) with
  | Some s => Py.Returned s
  | None => Py.Raised (no_data (lastError (cache sys)))
  end.

(** Modelled from the spec: [get_or_refresh(force=true)] when no fetch is
    in flight: it "triggers a refresh and waits for its completion, then
    returns the resulting snapshot" ([app.api.dex] is missing). *)
Definition get_or_refresh_forced (timeout : nat) (u : upstream) (sys : system)
  : Py.outcome RateSnapshot * system :=
  let sys' := run (refresh timeout u) sys in
  (handed sys', sys').

End FetchPath.

(* ===================================================================== *)
(** ** The warmer on the fetch path of the specification *)
(* ===================================================================== *)

Module Warmed.

Import RateCache FetchPath.

(** Modelled from the spec: the cache when the loop of [main.py] stands at
    its [k]-th fetch: the startup delay has passed, and after each earlier
    forced refresh the refresh delay ([app.api.dex] is missing). *)
Fixpoint cache_before (timeout : nat) (source : nat -> upstream) (k : nat) : system :=
  match k with
  | O => run [Elapse Warmer.startup_delay] start
  | S j =>
      run [Elapse Warmer.refresh_delay]
          (snd (get_or_refresh_forced timeout (source j) (cache_before timeout source j)))
  end.

(** Modelled from the spec: line 67 of [main.py],
    [await get_cached_rates(force_refresh=True)], at the [k]-th tick: the
    forced refresh of the specification on the upstream call [source k]
    ([app.api.dex], which defines [get_cached_rates], is missing). *)
Definition get_cached_rates (timeout : nat) (source : nat -> upstream) (k : nat)
  : Warmer.call RateSnapshot :=
  Warmer.Call (fst (bounded_fetch timeout (source k)))
              (fst (get_or_refresh_forced timeout (source k)
                                          (cache_before timeout source k))).

(** Modelled from the spec: the calls the warmer awaits, tick by tick
    ([app.api.dex] is missing). *)
Definition calls (timeout : nat) (source : nat -> upstream) (k : nat)
  : option (Warmer.call RateSnapshot) :=
  Some (get_cached_rates timeout source k).

(** An upstream that hangs on its first call and answers the later ones
    after 2 units. *)
Definition hangs_once (k : nat) : upstream :=
  match k with
  | O => Upstream None (Rates [] "dex")
  | S _ => Upstream (Some 2) (Rates [("BTC-PERP", "0.0001")] "dex")
  end.

End Warmed.

(* ===================================================================== *)
(** ** Single-flight coordination of the specification *)
(* ===================================================================== *)

Module SingleFlight.

Import RateCache FetchPath.

(** Modelled from the spec: who asks for a refresh: the scheduled tick of
    the warmer (line 67 of [main.py]) or a request handler
    ([app.api.dex] is missing). *)
Inductive caller : Type :=
| Scheduled_tick
| Handler (id : nat).

(** Modelled from the spec: the cache with its coordination: the upstream
    calls started so far, those started and not yet completed, the callers
    attached to the fetch in flight, and what each caller was handed
    ([app.api.dex] is missing). *)
Record flight : Type := Flight {
  sys : system;
  upstream_calls : nat;
  running : nat;
  waiting : list caller;
  answered : list (caller * Py.outcome RateSnapshot)
}.

(** Modelled from the spec: a caller calls [get_or_refresh(force)], the
    upstream call in flight concludes, or time passes ([app.api.dex] is
    missing). *)
Inductive step_event : Type :=
| Request (c : caller) (force : bool)
| Concluded (r : reply)
| Wait (dt : nat).

(** Modelled from the spec: "a current snapshot exists and is younger than
    the configured staleness threshold" ([app.api.dex] is missing). *)
Definition fresh (staleness_threshold : nat) (s : system) : option RateSnapshot :=
  match current (cache s) with
  | Some snap =>
      if now s - fetchedAt snap <? staleness_threshold then Some snap else None
  | None => None
  end.

(** Modelled from the spec: [get_or_refresh] and the single-flight
    coordination of section 4.1: a fresh snapshot is returned at once to a
    caller that does not force; otherwise the caller attaches to the fetch
    in flight, or starts one when none is; when the fetch concludes, the
    completion path runs and every attached caller is handed its result
    ([app.api.dex] is missing). *)
Definition step (staleness_threshold : nat) (st : flight) (ev : step_event) : flight :=
  match ev with
  | Request c force =>
      match (if force then None else fresh staleness_threshold (sys st)) with
      | Some snap =>
          Flight (sys st) (upstream_calls st) (running st) (waiting st)
                 (answered st ++ [(c, Py.Returned snap)])
      | None =>
          if inFlight (cache (sys st))
          then Flight (sys st) (upstream_calls st) (running st)
                      (waiting st ++ [c]) (answered st)
          else Flight (apply (sys st) BeginFetch) (S (upstream_calls st))
                      (S (running st)) (waiting st ++ [c]) (answered st)
      end
  | Concluded r =>
      if inFlight (cache (sys st))
      then
        let sys' := apply (sys st) (completion r) in
        Flight sys' (upstream_calls st) (running st - 1) []
               (answered st ++ map (fun c => (c, handed sys')) (waiting st))
      else st
  | Wait dt =>
      Flight (apply (sys st) (Elapse dt)) (upstream_calls st) (running st)
             (waiting st) (answered st)
  end.

(** Modelled from the spec: the coordination over a sequence of events
    ([app.api.dex] is missing). *)
Definition steps (staleness_threshold : nat) (evs : list step_event) (st : flight)
  : flight :=
  fold_left (step staleness_threshold) evs st.

(** Modelled from the spec: the coordination at process start
    ([app.api.dex] is missing). *)
Definition idle : flight := Flight start 0 0 [] [].

(** The callers of the forced requests among [evs], in order. *)
Fixpoint forced_callers (evs : list step_event) : list caller :=
  match evs with
  | [] => []
  | Request c true :: rest => c :: forced_callers rest
  | _ :: rest => forced_callers rest
  end.

(** Events that are forced requests or the passing of time. *)
Definition forced_or_wait (ev : step_event) : bool :=
  match ev with
  | Request _ true | Wait _ => true
  | _ => false
  end.

(** The gate and the count of running fetches agree, and callers wait
    only for a fetch in flight. *)
Definition gate_invariant (st : flight) : Prop :=
  running st = (if inFlight (cache (sys st)) then 1 else 0)
  /\ (inFlight (cache (sys st)) = false -> waiting st = []).

End SingleFlight.

(* ===================================================================== *)
(** * Properties of the warmer loop *)
(* ===================================================================== *)

Module WarmerFacts.

Import Warmer Scenario.

Section Loop.

Context {V : Type}.

Implicit Types (env : nat -> option (call V)) (s : state V) (c : call V).

Lemma exec_stuck env s fuel :
  (forall s', step env s <> Next s') -> exec fuel env s = s.
Proof.
  intros Hstuck. destruct fuel as [|fuel]; [reflexivity|].
  simpl. destruct (step env s) as [s'| |e] eqn:Hs; try reflexivity.
  exfalso. now apply (Hstuck s').
Qed.

Lemma exec_plus env a b s :
  exec (a + b) env s = exec b env (exec a env s).
Proof.
  revert s. induction a as [|a IH]; intros s; [reflexivity|].
  simpl. destruct (step env s) as [s'| |e] eqn:Hs.
  - apply IH.
  - symmetry. apply exec_stuck. intros s' H. congruence.
  - symmetry. apply exec_stuck. intros s' H. congruence.
Qed.

Lemma before_attempt_S env n :
  before_attempt (S n) env = exec 2 env (before_attempt n env).
Proof.
  unfold before_attempt.
  replace (1 + 2 * S n) with ((1 + 2 * n) + 2) by lia.
  apply exec_plus.
Qed.

(** One iteration of the loop whose call is survivable. *)
Lemma iteration env s c :
  at_pc s = AtFetch ->
  env (length (history s)) = Some c ->
  survivable c = true ->
  exec 2 env s = sleep refresh_delay AtFetch (await_fetch c s)
  /\ at_pc (await_fetch c s) = AtIntervalSleep.
Proof.
  intros Hpc Henv Hsurv.
  assert (Hat : at_pc (await_fetch c s) = AtIntervalSleep).
  { unfold await_fetch, survivable in *.
    destruct (result c) as [v|e]; [reflexivity|].
    now rewrite Hsurv. }
  split; [|exact Hat].
  simpl. unfold step at 1. rewrite Hpc, Henv.
  unfold step. now rewrite Hat.
Qed.

Lemma await_fetch_clock c s :
  clock (await_fetch c s) = clock s + duration c.
Proof.
  unfold await_fetch. destruct (result c) as [v|e]; [reflexivity|].
  now destruct (Py.isinstance_Exception e).
Qed.

Lemma await_fetch_history c s :
  history (await_fetch c s)
  = history s ++ [Attempt (clock s) (clock s + duration c) (result c)].
Proof.
  unfold await_fetch. destruct (result c) as [v|e]; [reflexivity|].
  now destruct (Py.isinstance_Exception e).
Qed.

(** While every call so far concluded and was survivable, the loop stands
    at its fetch, having made as many attempts as iterations. *)
Lemma loop_alive env n :
  (forall k, k < n -> exists c, env k = Some c /\ survivable c = true) ->
  at_pc (before_attempt n env) = AtFetch
  /\ length (history (before_attempt n env)) = n.
Proof.
  induction n as [|n IH]; intros Hcalls.
  - now split.
  - destruct IH as [Hpc Hlen]; [intros k Hk; apply Hcalls; lia|].
    destruct (Hcalls n) as (c & Hc & Hsurv); [lia|].
    rewrite before_attempt_S.
    destruct (iteration env (before_attempt n env) c) as [-> _]; try assumption.
    { now rewrite Hlen. }
    split; [reflexivity|].
    simpl. rewrite await_fetch_history, length_app. simpl. lia.
Qed.

(** An exception never leaves the loop while each raised one is an
    instance of [Exception]. *)
Lemma never_exited env fuel s :
  (forall k c, env k = Some c -> survivable c = true) ->
  (forall e, at_pc s <> Exited e) ->
  forall e, at_pc (exec fuel env s) <> Exited e.
Proof.
  intros Hsurv. revert s.
  induction fuel as [|fuel IH]; intros s Hs; [exact Hs|].
  simpl. destruct (step env s) as [s'| |e'] eqn:Hstep; try exact Hs.
  apply IH. unfold step in Hstep.
  destruct (at_pc s) eqn:Hpc.
  - injection Hstep as <-. simpl. discriminate.
  - destruct (env (length (history s))) as [c|] eqn:Hc; [|discriminate].
    injection Hstep as <-. intros e.
    specialize (Hsurv _ _ Hc). unfold await_fetch, survivable in *.
    destruct (result c) as [v|e0]; [discriminate|].
    rewrite Hsurv. discriminate.
  - injection Hstep as <-. simpl. discriminate.
  - discriminate.
Qed.

(** C1 (as amended).  While every exception a call to
    [get_cached_rates] raises is an instance of [Exception], no exception
    ever leaves the loop: the coroutine never reaches its exited state, so
    nothing reaches a reader of the cache or the process.  And for each such
    exception raised at a tick, the [except Exception] handler turns it
    into the printed failure line, after which the loop sleeps for the
    refresh delay and stands at its next fetch. *)
Theorem fetch_failures_are_contained env :
  (forall k d e, env k = Some (Call d (Py.Raised e)) -> Py.isinstance_Exception e = true) ->
  (forall fuel e, at_pc (background_cache_warmer fuel env) <> Exited e)
  /\ (forall s d e,
        at_pc s = AtFetch ->
        env (length (history s)) = Some (Call d (Py.Raised e)) ->
        step env s = Next (await_fetch (Call d (Py.Raised e)) s)
        /\ at_pc (await_fetch (Call d (Py.Raised e)) s) = AtIntervalSleep
        /\ stdout (await_fetch (Call d (Py.Raised e)) s) = stdout s ++ [failed_line e]
        /\ at_pc (exec 2 env s) = AtFetch
        /\ clock (exec 2 env s) = clock s + d + refresh_delay
        /\ length (history (exec 2 env s)) = S (length (history s))).
Proof.
  intros Hexc.
  assert (Hsurv : forall k c, env k = Some c -> survivable c = true).
  { intros k [d r] Hc. unfold survivable. simpl.
    destruct r as [v|e]; [reflexivity|]. exact (Hexc _ _ _ Hc). }
  split.
  - intros fuel. apply never_exited; [exact Hsurv|]. simpl. discriminate.
  - intros s d e Hpc Hc.
    pose proof (Hexc _ _ _ Hc) as He.
    destruct (iteration env s _ Hpc Hc (Hsurv _ _ Hc)) as [Hexec Hat].
    repeat split.
    + unfold step. now rewrite Hpc, Hc.
    + exact Hat.
    + unfold await_fetch. simpl. now rewrite He.
    + now rewrite Hexec.
    + rewrite Hexec. simpl. rewrite await_fetch_clock. reflexivity.
    + rewrite Hexec. simpl. rewrite await_fetch_history, length_app. simpl. lia.
Qed.

Lemma final_snoc (h : list (attempt V)) a : final (h ++ [a]) = Some a.
Proof.
  unfold final. rewrite length_app. simpl.
  rewrite nth_error_app2 by lia.
  now replace (length h + 1 - 1 - length h) with 0 by lia.
Qed.

Lemma evenly_spaced_snoc (h : list (attempt V)) x :
  evenly_spaced h ->
  (forall a, final h = Some a -> started x = ended a + refresh_delay) ->
  evenly_spaced (h ++ [x]).
Proof.
  intros Hh Hlast k a b Ha Hb.
  destruct (Nat.lt_ge_cases (S k) (length h)) as [Hin|Hout].
  - rewrite nth_error_app1 in Ha, Hb by lia. exact (Hh k a b Ha Hb).
  - assert (Hk : S k = length h).
    { apply Nat.le_antisymm; [|exact Hout].
      assert (S k < length (h ++ [x])) by (apply nth_error_Some; congruence).
      rewrite length_app in *. simpl in *. lia. }
    rewrite nth_error_app1 in Ha by lia.
    rewrite nth_error_app2 in Hb by lia.
    rewrite Hk, Nat.sub_diag in Hb. injection Hb as <-.
    apply Hlast. unfold final. now replace (length h - 1) with k by lia.
Qed.

Lemma step_invariant env s s' :
  loop_invariant s -> step env s = Next s' -> loop_invariant s'.
Proof.
  intros [Hspaced Hpc] Hstep. unfold step in Hstep.
  destruct (at_pc s) eqn:Hat.
  - injection Hstep as <-. split; [exact Hspaced|]. simpl.
    intros a Ha. rewrite Hpc in Ha. discriminate.
  - destruct (env (length (history s))) as [c|]; [|discriminate].
    injection Hstep as <-. split.
    + rewrite await_fetch_history. apply evenly_spaced_snoc; [exact Hspaced|].
      intros a Ha. simpl. exact (Hpc a Ha).
    + assert (Hfinal : final (history (await_fetch c s))
                       = Some (Attempt (clock s) (clock s + duration c) (result c))).
      { rewrite await_fetch_history. apply final_snoc. }
      pose proof (await_fetch_clock c s) as Hclock.
      destruct (at_pc (await_fetch c s)) eqn:Hat'; try exact I.
      * unfold await_fetch in Hat'. destruct (result c) as [v|e]; [discriminate|].
        destruct (Py.isinstance_Exception e); discriminate.
      * unfold await_fetch in Hat'. destruct (result c) as [v|e]; [discriminate|].
        destruct (Py.isinstance_Exception e); discriminate.
      * eexists. split; [exact Hfinal|exact Hclock].
  - injection Hstep as <-. split; [exact Hspaced|]. simpl.
    destruct Hpc as (a & Ha & Hclock). intros a' Ha'.
    rewrite Ha in Ha'. injection Ha' as <-. now rewrite Hclock.
  - discriminate.
Qed.

Lemma exec_invariant env fuel s :
  loop_invariant s -> loop_invariant (exec fuel env s).
Proof.
  revert s. induction fuel as [|fuel IH]; intros s Hinv; [exact Hinv|].
  simpl. destruct (step env s) as [s'| |e] eqn:Hstep; try exact Hinv.
  apply IH. exact (step_invariant env s s' Hinv Hstep).
Qed.

Lemma init_invariant : loop_invariant (@init V).
Proof.
  split; [|reflexivity]. intros k a b Ha. destruct k; discriminate.
Qed.

(** C2 (as amended).  However long the task has run and whatever its
    calls did, the delay from the end of an attempt to the start of the
    next is the same 60 units, be the earlier attempt a success or a
    failure and whatever the attempts before it were: there is no backoff.
    The 60 units run from the end of an attempt: after an attempt the loop
    survives (the call returned, or raised an instance of [Exception]),
    the next attempt starts at the start of this one plus its duration
    plus 60. *)
Theorem refresh_delay_is_constant env :
  (forall fuel k a b,
     nth_error (history (background_cache_warmer fuel env)) k = Some a ->
     nth_error (history (background_cache_warmer fuel env)) (S k) = Some b ->
     started b = ended a + 60)
  /\ (forall n c,
        (forall k, k <= n -> exists c', env k = Some c' /\ survivable c' = true) ->
        env n = Some c ->
        nth_error (history (before_attempt (S n) env)) n
        = Some (Attempt (clock (before_attempt n env))
                        (clock (before_attempt n env) + duration c) (result c))
        /\ at_pc (before_attempt (S n) env) = AtFetch
        /\ clock (before_attempt (S n) env)
           = (clock (before_attempt n env) + duration c) + 60).
Proof.
  split.
  - intros fuel.
    exact (proj1 (exec_invariant env fuel init init_invariant)).
  - intros n c Hcalls Hc.
    destruct (loop_alive env n) as [Hpc Hlen]; [intros k Hk; apply Hcalls; lia|].
    destruct (Hcalls n (Nat.le_refl n)) as (c' & Hc' & Hsurv).
    assert (c' = c) by congruence. subst c'.
    rewrite before_attempt_S.
    destruct (iteration env (before_attempt n env) c) as [-> _]; try assumption.
    { now rewrite Hlen. }
    repeat split.
    + simpl. rewrite await_fetch_history.
      rewrite nth_error_app2 by lia.
      now rewrite Hlen, Nat.sub_diag.
    + simpl. now rewrite await_fetch_clock.
Qed.

(** The loop resumes exactly when the awaited call concludes, logs a
    call that returns as a refresh, and starts the next attempt 60 units
    after the call concluded; while a call has not concluded the loop makes
    no further attempt. *)
Lemma warmer_waits_for_the_call env s :
  at_pc s = AtFetch ->
  (forall c,
     env (length (history s)) = Some c ->
     step env s = Next (await_fetch c s)
     /\ clock (await_fetch c s) = clock s + duration c
     /\ (forall v, result c = Py.Returned v ->
           stdout (await_fetch c s) = stdout s ++ [refreshed_line])
     /\ (survivable c = true ->
           at_pc (exec 2 env s) = AtFetch
           /\ clock (exec 2 env s) = clock s + duration c + refresh_delay))
  /\ (env (length (history s)) = None -> forall fuel, exec fuel env s = s).
Proof.
  intros Hpc. split.
  - intros c Hc. repeat split.
    + unfold step. now rewrite Hpc, Hc.
    + apply await_fetch_clock.
    + intros v Hv. unfold await_fetch. now rewrite Hv.
    + destruct (iteration env s c Hpc Hc H) as [-> _]. reflexivity.
    + destruct (iteration env s c Hpc Hc H) as [-> _]. simpl.
      now rewrite await_fetch_clock.
  - intros Hnone fuel. apply exec_stuck.
    intros s'. unfold step. rewrite Hpc, Hnone. discriminate.
Qed.

End Loop.

Lemma flaky_source_raises_Exceptions k d e :
  flaky_source k = Some (Call d (Py.Raised e)) -> Py.isinstance_Exception e = true.
Proof.
  unfold flaky_source. intros H. injection H as _ H.
  destruct (Nat.even k); [discriminate|]. now injection H as <-.
Defined.

Lemma flaky_source_survivable k :
  exists c, flaky_source k = Some c /\ survivable c = true.
Proof.
  unfold flaky_source. eexists. split; [reflexivity|].
  unfold survivable. simpl. now destruct (Nat.even k).
Defined.

(** The theorem at a source that times out on every second call. *)
Lemma fetch_failures_are_contained_witness :
  (forall fuel e, at_pc (background_cache_warmer fuel flaky_source) <> Exited e)
  /\ at_pc (exec 2 flaky_source (before_attempt 1 flaky_source)) = AtFetch
  /\ stdout (exec 2 flaky_source (before_attempt 1 flaky_source))
     = [refreshed_line; "⚠ Failed to refresh DEX cache: upstream timed out"].
Proof.
  destruct (fetch_failures_are_contained flaky_source flaky_source_raises_Exceptions)
    as [Hnever Htick].
  split; [exact Hnever|].
  destruct (Htick (before_attempt 1 flaky_source) 1
                  timed_out
                  eq_refl eq_refl) as (_ & _ & _ & Hpc & _ & _).
  split; [exact Hpc|reflexivity].
Defined.

(** C1, as stated, fails: a call that raises [asyncio.CancelledError],
    which is no instance of [Exception], is not caught.  Nothing is
    printed, the coroutine ends with the exception, and no later attempt is
    ever made.  The same holds of every class that derives from
    [BaseException] only. *)
Lemma cancelled_fetch_ends_the_loop :
  let e := Py.Exc Py.CancelledError "" in
  let env := fun _ : nat => Some (Call 3 (@Py.Raised unit e)) in
  Py.isinstance_Exception e = false
  /\ at_pc (before_attempt 1 env) = Exited e
  /\ stdout (before_attempt 1 env) = []
  /\ (forall fuel, exec fuel env (before_attempt 1 env) = before_attempt 1 env)
  /\ (forall cls msg d,
        Py.issubclass_Exception cls = false ->
        at_pc (before_attempt 1 (fun _ => Some (Call d (@Py.Raised unit (Py.Exc cls msg)))))
        = Exited (Py.Exc cls msg)).
Proof.
  split; [reflexivity|]. split; [reflexivity|]. split; [reflexivity|]. split.
  - intros fuel. apply exec_stuck. intros s'. discriminate.
  - intros cls msg d Hcls.
    unfold before_attempt, background_cache_warmer. simpl.
    unfold step, await_fetch, Py.isinstance_Exception. simpl.
    now rewrite Hcls.
Qed.

(** The theorem at the same source: four attempts, each starting 60 units
    after the one before it ended. *)
Lemma refresh_delay_is_constant_witness :
  map started (history (background_cache_warmer 9 flaky_source)) = [5; 65; 126; 188]
  /\ map ended (history (background_cache_warmer 9 flaky_source)) = [5; 66; 128; 191]
  /\ 126 = 66 + 60
  /\ clock (before_attempt 2 flaky_source) = 66 + 60.
Proof.
  destruct (refresh_delay_is_constant flaky_source) as [Hgap Hnext].
  split; [reflexivity|]. split; [reflexivity|]. split.
  - exact (Hgap 9 1 _ _ eq_refl eq_refl).
  - destruct (Hnext 1 _ (fun k _ => flaky_source_survivable k) eq_refl) as (_ & _ & Hclock).
    exact Hclock.
Defined.

(** C2, as stated, fails: with calls that each take 30 units and then
    fail, the attempts start at 5, 95 and 185.  The interval from one
    attempt to the next is 90 units, not 60: a fetch that is slow to fail
    does stretch it. *)
Lemma slow_failure_stretches_the_interval :
  let env := fun _ : nat => Some (Call 30 (@Py.Raised unit timed_out)) in
  map started (history (background_cache_warmer 7 env)) = [5; 95; 185]
  /\ map ended (history (background_cache_warmer 7 env)) = [35; 125; 215]
  /\ stdout (background_cache_warmer 7 env)
     = [failed_line timed_out; failed_line timed_out; failed_line timed_out].
Proof.
  intros env. split; [|split]; reflexivity.
Qed.

(** The lemma at a call that takes 1000 units. *)
Lemma warmer_waits_for_the_call_witness :
  let env := fun _ : nat => Some (Call 1000 (Py.Returned tt)) in
  at_pc (before_attempt 0 env) = AtFetch
  /\ step env (before_attempt 0 env)
     = Next (await_fetch (Call 1000 (Py.Returned tt)) (before_attempt 0 env))
  /\ clock (exec 2 env (before_attempt 0 env)) = 5 + 1000 + 60.
Proof.
  intros env.
  destruct (warmer_waits_for_the_call env (before_attempt 0 env) eq_refl) as [Hcall _].
  destruct (Hcall _ eq_refl) as (Hstep & _ & _ & Hnext).
  destruct (Hnext eq_refl) as [_ Hclock].
  split; [reflexivity|]. split; [exact Hstep|exact Hclock].
Defined.

End WarmerFacts.

(* ===================================================================== *)
(** * The start-up scenario *)
(* ===================================================================== *)

Module TimelineFacts.

Import Warmer Timeline.

Section Reader.

Context {V Cache : Type}.
Variable empty : Cache.
Variable read : Cache -> option V.
Variable succeed : V -> Cache -> Cache.
Variable fail : Py.exc -> nat -> Cache -> Cache.

(** What section 4.1 of the specification says of the cache: nothing is
    current at first, a published snapshot is the current one, a recorded
    failure leaves the current one as it was. *)
Hypothesis read_empty : read empty = None.
Hypothesis read_succeed : forall v c, read (succeed v c) = Some v.
Hypothesis read_fail : forall e t c, read (fail e t c) = read c.

Local Abbreviation view := (view_at empty succeed fail).

Lemma view_snoc t h a :
  view t (h ++ [a]) = settle succeed fail t (view t h) a.
Proof. unfold view_at. now rewrite fold_left_app. Qed.

Lemma settle_later t c a :
  t < ended a -> settle succeed fail t c a = c.
Proof.
  intros Hlate. unfold settle.
  destruct (Nat.leb_spec (ended a) t); [lia|reflexivity].
Qed.

Lemma step_clock_history (env : nat -> option (call V)) s s' :
  step env s = Next s' ->
  clock s <= clock s'
  /\ (history s' = history s
      \/ exists a, history s' = history s ++ [a] /\ clock s <= ended a).
Proof.
  unfold step. destruct (at_pc s).
  - intros [= <-]. simpl. split; [lia|now left].
  - destruct (env (length (history s))) as [c|]; [|discriminate].
    intros [= <-].
    rewrite WarmerFacts.await_fetch_clock, WarmerFacts.await_fetch_history.
    split; [lia|]. right. eexists. split; [reflexivity|]. simpl. lia.
  - intros [= <-]. simpl. split; [lia|now left].
  - discriminate.
Qed.

(** What a reader saw at time [t] is not changed by anything the warmer
    does once its clock has passed [t]. *)
Lemma view_stable (env : nat -> option (call V)) t fuel s :
  t < clock s ->
  view t (history (exec fuel env s)) = view t (history s).
Proof.
  revert s. induction fuel as [|fuel IH]; intros s Ht; [reflexivity|].
  simpl. destruct (step env s) as [s'| |e] eqn:Hs; try reflexivity.
  destruct (step_clock_history env s s' Hs) as [Hclock Hhist].
  rewrite IH by lia.
  destruct Hhist as [->|(a & -> & Ha)]; [reflexivity|].
  rewrite view_snoc. apply settle_later. lia.
Qed.

(** The first two iterations of the scenario. *)
Lemma two_attempts (env : nat -> option (call V)) d1 d2 e S1 :
  Py.isinstance_Exception e = true ->
  env 0 = Some (Call d1 (Py.Raised e)) ->
  env 1 = Some (Call d2 (Py.Returned S1)) ->
  before_attempt 2 env
  = State AtFetch (5 + d1 + 60 + d2 + 60)
      [failed_line e; refreshed_line]
      [Attempt 5 (5 + d1) (Py.Raised e);
       Attempt (5 + d1 + 60) (5 + d1 + 60 + d2) (Py.Returned S1)].
Proof.
  intros He H0 H1.
  assert (E0 : before_attempt 0 env = State AtFetch 5 [] []) by reflexivity.
  assert (E1 : before_attempt 1 env
               = State AtFetch (5 + d1 + 60) [failed_line e]
                   [Attempt 5 (5 + d1) (Py.Raised e)]).
  { rewrite WarmerFacts.before_attempt_S, E0.
    destruct (WarmerFacts.iteration env (State AtFetch 5 [] []) (Call d1 (Py.Raised e)))
      as [-> _]; [reflexivity|exact H0|exact He|].
    unfold await_fetch. simpl. now rewrite He. }
  rewrite WarmerFacts.before_attempt_S, E1.
  destruct (WarmerFacts.iteration env
              (State AtFetch (5 + d1 + 60) [failed_line e] [Attempt 5 (5 + d1) (Py.Raised e)])
              (Call d2 (Py.Returned S1)))
    as [-> _]; [reflexivity|exact H1|reflexivity|].
  reflexivity.
Qed.

(** C4 (as amended).  The first attempt starts when the grace delay of
    5 has elapsed, and the second 60 units after the first has ended, that
    is at [65 + d1] when the first took [d1] units.  When the first call
    fails and the second returns the snapshot [S1] after [d2] units, a
    reader at time 10 finds nothing, and a reader at time 70 finds [S1]
    exactly when the second call has concluded by then, [d1 + d2 <= 5];
    what either reader found does not depend on how long the warmer goes
    on running. *)
Theorem grace_delay_scenario (env : nat -> option (call V)) d1 d2 e S1 :
  Py.isinstance_Exception e = true ->
  env 0 = Some (Call d1 (Py.Raised e)) ->
  env 1 = Some (Call d2 (Py.Returned S1)) ->
  clock (before_attempt 0 env) = 5
  /\ map started (history (before_attempt 2 env)) = [5; 65 + d1]
  /\ (forall fuel,
        let h := history (exec fuel env (before_attempt 2 env)) in
        read (view 10 h) = None
        /\ (d1 + d2 <= 5 -> read (view 70 h) = Some S1)
        /\ (5 < d1 + d2 -> read (view 70 h) = None)).
Proof.
  intros He H0 H1.
  pose proof (two_attempts env d1 d2 e S1 He H0 H1) as Hrun.
  split; [reflexivity|].
  split.
  { rewrite Hrun. simpl. f_equal. f_equal. lia. }
  intros fuel h.
  assert (Hview : forall t, t < 125 -> view t h = view t (history (before_attempt 2 env))).
  { intros t Ht. apply view_stable. rewrite Hrun. simpl. lia. }
  rewrite !Hview by lia. rewrite Hrun. simpl history.
  unfold view_at. simpl. unfold settle. simpl ended. simpl concluded.
  repeat split; [|intros Hfast|intros Hslow].
  all: repeat match goal with
       | |- context [?a <=? ?b] => destruct (Nat.leb_spec a b); try lia
       end.
  all: rewrite ?read_succeed, ?read_fail; auto.
Qed.

End Reader.

Import Scenario.

(** The theorem at the cache of the specification, both calls concluding at
    once: the attempts start at 5 and 65, and the reader at 70 finds
    [S1]. *)
Lemma grace_delay_scenario_witness :
  let env := fails_then_succeeds 0 0 in
  map started (history (before_attempt 2 env)) = [5; 65]
  /\ RateCache.read (rate_cache_at 10 (history (before_attempt 2 env))) = None
  /\ RateCache.read (rate_cache_at 70 (history (before_attempt 2 env))) = Some S1.
Proof.
  intros env.
  destruct (grace_delay_scenario RateCache.empty RateCache.read RateCache.publish
              (fun e at_time =>
                 RateCache.record_failure
                   (RateCache.Error RateCache.Network (Py.exc_str e) at_time))
              eq_refl (fun _ _ => eq_refl) (fun _ _ _ => eq_refl)
              env 0 0 timed_out S1 eq_refl eq_refl eq_refl)
    as (_ & Hstarts & Hread).
  destruct (Hread 0) as (H10 & H70 & _).
  split; [exact Hstarts|]. split; [exact H10|].
  apply H70. simpl. lia.
Defined.

(** C4, as stated, fails: when the failing first call takes 10 units, the
    second attempt starts at 75, not at 65, and a reader at time 70 still
    finds nothing. *)
Lemma slow_first_fetch_delays_the_second :
  let env := fails_then_succeeds 10 0 in
  map started (history (before_attempt 2 env)) = [5; 75]
  /\ map ended (history (before_attempt 2 env)) = [15; 75]
  /\ RateCache.read (rate_cache_at 70 (history (before_attempt 2 env))) = None.
Proof.
  intros env. split; [|split]; reflexivity.
Qed.

End TimelineFacts.

(* ===================================================================== *)
(** * Properties of the startup hook *)
(* ===================================================================== *)

Module StartupFacts.

Import Startup.

Create HintDb startup.

Section Statements.

Context {W A B : Type}.

Lemma ret_raises_nothing (a : A) : raises_Exceptions_only (@ret W A a).
Proof. intros w e w' H. discriminate. Qed.

Lemma raise_Exception_class name msg :
  raises_Exceptions_only (@raise W A (Py.Exc (Py.ExceptionClass name) msg)).
Proof. intros w e w' [= <- _]. reflexivity. Qed.

Lemma bind_raises_Exceptions (m : M W A) (k : A -> M W B) :
  raises_Exceptions_only m ->
  (forall a, raises_Exceptions_only (k a)) ->
  raises_Exceptions_only (bind m k).
Proof.
  intros Hm Hk w e w' H. unfold bind in H.
  destruct (m w) as [[a|e0] w1] eqn:Hmw.
  - exact (Hk a _ _ _ H).
  - injection H as <- <-. exact (Hm _ _ _ Hmw).
Qed.

(** [try ... except Exception] around a body that raises [Exception]s
    only: the statement returns, by the body or by the handler. *)
Lemma try_except_catches (body : M W A) (handler : Py.exc -> M W A) w :
  raises_Exceptions_only body ->
  try_except_Exception body handler w
  = match body w with
    | (Py.Returned a, w') => (Py.Returned a, w')
    | (Py.Raised e, w') => handler e w'
    end.
Proof.
  intros Hbody. unfold try_except_Exception.
  destruct (body w) as [[a|e] w'] eqn:Hb; [reflexivity|].
  now rewrite (Hbody _ _ _ Hb).
Qed.

End Statements.

#[local] Hint Resolve ret_raises_nothing raise_Exception_class : startup.

Section Hook.

Context {DB : Type}.
Variable sql : sqlite3_driver DB.
Variable hash_password : string -> string.

Implicit Types (w : world DB).

Lemma lift_raises_Exceptions {A : Type} (op : DB -> (sqlite3_error + A) * DB) :
  raises_Exceptions_only (lift op).
Proof.
  intros w e w' H. unfold lift in H.
  destruct (op (sqlite w)) as [[err|a] d]; [|discriminate].
  now injection H as <- _.
Qed.

Lemma print_raises_nothing line : raises_Exceptions_only (@print DB line).
Proof. intros w e w' H. discriminate. Qed.

Lemma second_fields_raises_Exceptions rows :
  raises_Exceptions_only (@second_fields DB rows).
Proof.
  induction rows as [|col rest IH]; cbn [second_fields]; auto with startup.
  destruct (nth_error col 1); auto with startup.
  apply bind_raises_Exceptions; auto with startup.
Qed.

Hint Resolve lift_raises_Exceptions print_raises_nothing
  second_fields_raises_Exceptions : startup.

(** Whatever a statement of the block raises is an instance of
    [Exception]. *)
Lemma migration_body_raises_Exceptions :
  raises_Exceptions_only (migration_body sql).
Proof.
  unfold migration_body.
  repeat (apply bind_raises_Exceptions; [auto with startup|intros]).
  - destruct (existsb _ _); auto with startup.
    repeat (apply bind_raises_Exceptions; [auto with startup|intros]).
    auto with startup.
  - auto with startup.
Qed.

Lemma bind_keeps_users {A B : Type} (m : M (world DB) A) (k : A -> M (world DB) B) :
  keeps_users m -> (forall a, keeps_users (k a)) -> keeps_users (bind m k).
Proof.
  intros Hm Hk w. unfold bind.
  destruct (m w) as [[a|e] w1] eqn:Hmw.
  - destruct (Hk a w1) as (-> & -> & ->).
    specialize (Hm w). now rewrite Hmw in Hm.
  - specialize (Hm w). now rewrite Hmw in Hm.
Qed.

Lemma lift_keeps_users {A : Type} (op : DB -> (sqlite3_error + A) * DB) :
  keeps_users (lift op).
Proof.
  intros w. unfold lift. now destruct (op (sqlite w)) as [[err|a] d].
Qed.

Lemma print_keeps_users line : keeps_users (@print DB line).
Proof. now intros w. Qed.

Lemma ret_keeps_users {A : Type} (a : A) : keeps_users (@ret (world DB) A a).
Proof. now intros w. Qed.

Lemma raise_keeps_users {A : Type} e : keeps_users (@raise (world DB) A e).
Proof. now intros w. Qed.

Lemma second_fields_keeps_users rows : keeps_users (@second_fields DB rows).
Proof.
  induction rows as [|col rest IH]; cbn [second_fields]; [apply ret_keeps_users|].
  destruct (nth_error col 1); [|apply raise_keeps_users].
  apply bind_keeps_users; [exact IH|intros; apply ret_keeps_users].
Qed.

Hint Resolve lift_keeps_users print_keeps_users ret_keeps_users
  second_fields_keeps_users : startup.

Lemma migration_body_keeps_users : keeps_users (migration_body sql).
Proof.
  unfold migration_body.
  repeat (apply bind_keeps_users; [auto with startup|intros]).
  - destruct (existsb _ _); auto with startup.
    repeat (apply bind_keeps_users; [auto with startup|intros]).
    auto with startup.
  - auto with startup.
Qed.

(** The block returns in every world, whatever the driver does. *)
Lemma migration_returns w :
  migration sql w
  = match migration_body sql w with
    | (Py.Returned _, w') => (Py.Returned tt, w')
    | (Py.Raised e, w') => print ("Migration note: " ++ Py.exc_str e)%string w'
    end.
Proof.
  unfold migration.
  rewrite try_except_catches by apply migration_body_raises_Exceptions.
  now destruct (migration_body sql w) as [[[]|e] w'].
Qed.

Lemma migration_keeps_users : keeps_users (migration sql).
Proof.
  intros w. rewrite migration_returns.
  pose proof (migration_body_keeps_users w) as Hbody.
  destruct (migration_body sql w) as [[[]|e] w']; exact Hbody.
Qed.

(** What seeding does to the user table. *)
Lemma seed_users_spec w :
  fst (seed_users hash_password w) = Py.Returned tt
  /\ users (snd (seed_users hash_password w))
     = match users w with
       | [] => initial_rows hash_password w
       | _ :: _ => users w
       end
  /\ environ (snd (seed_users hash_password w)) = environ w.
Proof.
  unfold seed_users, bind, get_db_session, try_finally, query_User_count.
  simpl. destruct (users w) as [|u rest] eqn:Hu; simpl.
  - split; [reflexivity|]. split; reflexivity.
  - split; [reflexivity|]. split; reflexivity.
Qed.

Lemma announce_spec w :
  announce w
  = (Py.Returned tt,
     World (out w ++ announcement w) (environ w) (tables_created w) (tasks w)
           (sqlite w) (users w) (pending w)).
Proof.
  unfold announcement, announce, bind, getenv, print. simpl.
  now rewrite <- !app_assoc.
Qed.

(** The hook, step by step: the block returns, seeding returns, and the
    hook ends with the announcement. *)
Lemma startup_event_runs w :
  exists wm w2,
    migration sql (snd (prelude w)) = (Py.Returned tt, wm)
    /\ seed_users hash_password wm = (Py.Returned tt, w2)
    /\ startup_event sql hash_password w = announce w2
    /\ users w2 = match users w with
                  | [] => initial_rows hash_password w
                  | _ :: _ => users w
                  end
    /\ environ w2 = environ w.
Proof.
  assert (Hm : exists wm, migration sql (snd (prelude w)) = (Py.Returned tt, wm)).
  { rewrite migration_returns.
    destruct (migration_body sql (snd (prelude w))) as [[[]|e] w']; eexists; reflexivity. }
  destruct Hm as [wm Hm].
  destruct (migration_keeps_users (snd (prelude w))) as (Hu & _ & He).
  rewrite Hm in Hu, He. simpl in Hu, He.
  destruct (seed_users_spec wm) as (Hfst & Husers & Henv).
  destruct (seed_users hash_password wm) as [r w2] eqn:Hseed.
  simpl in Hfst, Husers, Henv. subst r.
  exists wm, w2. split; [exact Hm|]. split; [exact Hseed|]. split.
  - unfold startup_event, prelude in *. unfold bind in *. simpl in *.
    now rewrite Hm, Hseed.
  - rewrite Henv, He, Husers, Hu. split; [|reflexivity].
    destruct (users w); [|reflexivity].
    unfold initial_rows. now rewrite He.
Qed.

(** C9.  Whatever a call of the migration block raises, be it opening
    the database, inspecting [alert_configs] or rewriting it, is an instance
    of [Exception]; the block catches it and prints it as a migration note,
    nothing else.  So the block returns in every case, and the hook goes on
    to seed the users and print its announcement. *)
Theorem failed_migration_does_not_stop_startup w :
  (forall e w1,
     migration_body sql w = (Py.Raised e, w1) ->
     Py.isinstance_Exception e = true
     /\ migration sql w
        = (Py.Returned tt,
           World (out w1 ++ [("Migration note: " ++ Py.exc_str e)%string])
                 (environ w1) (tables_created w1) (tasks w1)
                 (sqlite w1) (users w1) (pending w1)))
  /\ fst (migration sql w) = Py.Returned tt
  /\ (let w1 := snd (migration sql (snd (prelude w))) in
      let w2 := snd (seed_users hash_password w1) in
      startup_event sql hash_password w = announce w2
      /\ fst (startup_event sql hash_password w) = Py.Returned tt
      /\ users w2 = match users w with
                    | [] => initial_rows hash_password w
                    | _ :: _ => users w
                    end
      /\ out (snd (startup_event sql hash_password w)) = out w2 ++ announcement w2).
Proof.
  split; [|split].
  - intros e w1 Hb. split.
    + exact (migration_body_raises_Exceptions _ _ _ Hb).
    + rewrite migration_returns, Hb. reflexivity.
  - rewrite migration_returns.
    now destruct (migration_body sql w) as [[[]|e] w'].
  - destruct (startup_event_runs w) as (wm & w2 & Hm & Hseed & Hstart & Husers & _).
    cbv zeta. rewrite Hm. simpl snd. rewrite Hseed. simpl snd.
    rewrite Hstart, announce_spec. simpl.
    repeat split. exact Husers.
Qed.

End Hook.

Section Restart.

Context {DB : Type}.
Variable hash_password : string -> string.

(** C10.  The hook inserts ramu, ligigy and quasi only into an empty
    user table; run on a table that holds a user it leaves the table as it
    is, so a second run of the hook, whatever the migration block does in
    either run, changes nothing in the user table. *)
Theorem seeding_is_idempotent (sql sql' : sqlite3_driver DB) (w : world DB) :
  let w1 := snd (startup_event sql hash_password w) in
  let w2 := snd (startup_event sql' hash_password w1) in
  (users w <> [] -> users w1 = users w)
  /\ (users w = [] ->
      users w1 = initial_rows hash_password w
      /\ map username (users w1) = ["ramu"; "ligigy"; "quasi"])
  /\ users w2 = users w1.
Proof.
  assert (Hrun : forall s (v : world DB),
             users (snd (startup_event s hash_password v))
             = match users v with
               | [] => initial_rows hash_password v
               | _ :: _ => users v
               end).
  { intros s v.
    destruct (startup_event_runs s hash_password v) as (wm & w2 & _ & _ & -> & Hu & _).
    rewrite announce_spec. exact Hu. }
  cbv zeta. rewrite !Hrun.
  split; [|split].
  - intros Hsome. now destruct (users w).
  - intros ->. now split.
  - now destruct (users w).
Qed.

End Restart.

Import Scenario.

(** The three runs below are the model evaluated: a database that cannot
    be opened, a database whose migration fails half way, and a restart. *)
Example unopenable_database_run :
  let w := snd (startup_event unopenable (fun p => ("hash:" ++ p)%string)
                              (fresh_world tt [])) in
  out w
  = ["Migration note: unable to open database file";
     "👤 Created initial users: ramu, ligigy, quasi";
     "🚀 Distill Webhook Visualiser started successfully!";
     "📡 Webhook endpoint: http://localhost:8000/webhook/distill";
     "🌐 Dashboard: http://localhost:8000/";
     "📚 API Docs: http://localhost:8000/docs"]
  /\ users w
     = [mkUser "ramu" "hash:changeme" true;
        mkUser "ligigy" "hash:changeme" true;
        mkUser "quasi" "hash:changeme" true]
  /\ tasks w = ["background_cache_warmer"].
Proof. repeat split. Qed.

Example half_migrated_database_run :
  let existing := [mkUser "ops" "hash:secret" true] in
  let w := snd (startup_event half_migrated (fun p => ("hash:" ++ p)%string)
                              (fresh_world [] existing)) in
  firstn 1 (out w) = ["Migration note: table alert_configs_new already exists"]
  /\ sqlite w = ["PRAGMA table_info(alert_configs)"]
  /\ users w = existing.
Proof. repeat split. Qed.

End StartupFacts.

(* ===================================================================== *)
(** * Properties of the cache of the specification *)
(* ===================================================================== *)

Module RateCacheFacts.

Import RateCache.

Lemma run_app evs1 evs2 sys :
  run (evs1 ++ evs2) sys = run evs2 (run evs1 sys).
Proof. apply fold_left_app. Qed.

Lemma run_cons ev evs sys : run (ev :: evs) sys = run evs (apply sys ev).
Proof. reflexivity. Qed.

(** What one event does to the current snapshot: nothing, unless it is the
    success of the fetch in flight, which publishes a snapshot stamped
    with the present time. *)
Lemma apply_current sys ev :
  (current (cache (apply sys ev)) = current (cache sys)
   /\ published (apply sys ev) = published sys)
  \/ (exists p src,
        ev = FetchSucceeded p src
        /\ inFlight (cache sys) = true
        /\ current (cache (apply sys ev)) = Some (Snapshot p (now sys) src)
        /\ published (apply sys ev) = S (published sys)).
Proof.
  destruct ev as [dt| |p src|k msg|]; simpl;
    try (destruct (inFlight (cache sys)) eqn:Hgate; simpl); auto.
  right. exists p, src. auto.
Qed.

Lemma apply_now sys ev : now sys <= now (apply sys ev).
Proof.
  destruct ev; simpl; try (destruct (inFlight (cache sys)); simpl); lia.
Qed.

Lemma apply_stamped sys ev :
  stamped_in_the_past sys -> stamped_in_the_past (apply sys ev).
Proof.
  intros Hinv s Hs. pose proof (apply_now sys ev) as Hnow.
  destruct (apply_current sys ev) as [[Hsame _]|(p & src & _ & _ & Hnew & _)].
  - rewrite Hsame in Hs. specialize (Hinv s Hs). lia.
  - rewrite Hnew in Hs. injection Hs as <-. simpl. exact Hnow.
Qed.

Lemma run_stamped evs sys :
  stamped_in_the_past sys -> stamped_in_the_past (run evs sys).
Proof.
  revert sys. induction evs as [|ev evs IH]; intros sys Hinv; [exact Hinv|].
  rewrite run_cons. apply IH, apply_stamped, Hinv.
Qed.

Lemma start_stamped : stamped_in_the_past start.
Proof. intros s Hs. discriminate. Qed.

(** From a state whose snapshot is stamped in the past, the snapshot a
    reader finds never gets older and never goes away, and it changes only
    when a further snapshot is published. *)
Lemma read_monotone evs sys s1 :
  stamped_in_the_past sys ->
  read (cache sys) = Some s1 ->
  exists s2,
    read (cache (run evs sys)) = Some s2
    /\ fetchedAt s1 <= fetchedAt s2
    /\ published sys <= published (run evs sys)
    /\ (published (run evs sys) = published sys -> s2 = s1).
Proof.
  revert sys s1. induction evs as [|ev evs IH]; intros sys s1 Hinv Hread.
  - exists s1. auto.
  - rewrite run_cons. unfold read in *.
    pose proof (apply_stamped sys ev Hinv) as Hinv'.
    destruct (apply_current sys ev) as [[Hsame Hpub]|(p & src & _ & _ & Hnew & Hpub)].
    + destruct (IH (apply sys ev) s1 Hinv') as (s2 & H2 & Hle & Hmono & Heq).
      { now rewrite Hsame. }
      exists s2. rewrite Hpub in *. auto.
    + destruct (IH (apply sys ev) _ Hinv' Hnew) as (s2 & H2 & Hle & Hmono & Heq).
      exists s2. simpl in Hle. specialize (Hinv s1 Hread).
      repeat split; [exact H2|lia|lia|intros; lia].
Qed.

(** C6.  Over any life of the cache, a snapshot a reader has found is
    replaced only by one published by a later successful fetch, whose
    [fetchedAt] is at least as large; the reader never finds an older one,
    nor nothing, afterwards. *)
Theorem freshness_is_monotonic evs1 evs2 s1 :
  read (cache (run evs1 start)) = Some s1 ->
  exists s2,
    read (cache (run (evs1 ++ evs2) start)) = Some s2
    /\ fetchedAt s1 <= fetchedAt s2
    /\ published (run evs1 start) <= published (run (evs1 ++ evs2) start)
    /\ (published (run (evs1 ++ evs2) start) = published (run evs1 start) -> s2 = s1).
Proof.
  intros Hread. rewrite run_app.
  apply read_monotone; [|exact Hread].
  apply run_stamped, start_stamped.
Qed.

(** The theorem at a life with a success, a failure and a second
    success. *)
Lemma freshness_is_monotonic_witness :
  let first := [BeginFetch; Elapse 2; FetchSucceeded [("BTC-PERP", "0.0001")] "dex"] in
  let later := [Elapse 60; BeginFetch; FetchFailed Timeout "upstream timed out";
                Elapse 60; BeginFetch; Elapse 1;
                FetchSucceeded [("BTC-PERP", "0.0003")] "dex"] in
  read (cache (run first start)) = Some (Snapshot [("BTC-PERP", "0.0001")] 2 "dex")
  /\ exists s2,
       read (cache (run (first ++ later) start)) = Some s2
       /\ 2 <= fetchedAt s2.
Proof.
  intros first later. split; [reflexivity|].
  destruct (freshness_is_monotonic first later
              (Snapshot [("BTC-PERP", "0.0001")] 2 "dex") eq_refl)
    as (s2 & Hread & Hle & _).
  exists s2. split; [exact Hread|exact Hle].
Defined.

(** Events among which no fetch succeeds leave the current snapshot as it
    is. *)
Lemma failures_keep_current evs sys :
  forallb (fun ev => negb (is_success ev)) evs = true ->
  current (cache (run evs sys)) = current (cache sys).
Proof.
  revert sys. induction evs as [|ev evs IH]; intros sys Hnone; [reflexivity|].
  simpl in Hnone. apply andb_prop in Hnone as [Hev Hrest].
  rewrite run_cons, IH by exact Hrest.
  destruct (apply_current sys ev) as [[Hsame _]|(p & src & -> & _)];
    [exact Hsame|discriminate].
Qed.

(** C7.  [record_failure] sets [lastError] and nothing else.  So while
    every fetch fails, a reader keeps finding the snapshot of the last
    success, however long that goes on, and finds nothing if no fetch has
    succeeded yet. *)
Theorem failed_fetch_keeps_the_snapshot :
  (forall e st,
     lastError (record_failure e st) = Some e
     /\ current (record_failure e st) = current st
     /\ inFlight (record_failure e st) = inFlight st)
  /\ (forall evs sys,
        forallb (fun ev => negb (is_success ev)) evs = true ->
        read (cache (run evs sys)) = read (cache sys))
  /\ (forall evs,
        forallb (fun ev => negb (is_success ev)) evs = true ->
        read (cache (run evs start)) = None).
Proof.
  split; [|split].
  - intros e st. unfold record_failure. simpl. auto.
  - intros evs sys Hnone. unfold read. now apply failures_keep_current.
  - intros evs Hnone. unfold read. now rewrite failures_keep_current.
Qed.

Lemma apply_absent sys ev :
  absent_iff_unpublished sys -> absent_iff_unpublished (apply sys ev).
Proof.
  unfold absent_iff_unpublished. intros Hinv.
  destruct (apply_current sys ev) as [[-> ->]|(p & src & _ & _ & -> & ->)];
    [exact Hinv|].
  split; discriminate.
Qed.

Lemma run_absent evs sys :
  absent_iff_unpublished sys -> absent_iff_unpublished (run evs sys).
Proof.
  revert sys. induction evs as [|ev evs IH]; intros sys Hinv; [exact Hinv|].
  rewrite run_cons. apply IH, apply_absent, Hinv.
Qed.

(** C8.  [read] is a projection of the state: it is defined whether
    or not a fetch is in flight, changes nothing and starts nothing.  Over
    any life of the cache it finds nothing exactly when no fetch has
    succeeded so far, and that case is the value [None], not an error. *)
Theorem read_is_absent_iff_never_succeeded :
  (forall evs,
     read (cache (run evs start)) = None <-> published (run evs start) = 0)
  /\ (forall b st, read (set_inFlight b st) = read st)
  /\ (forall sys, apply sys Read = sys)
  /\ (forall evs sys,
        forallb (fun ev => negb (is_success ev)) evs = true ->
        published (run evs sys) = published sys).
Proof.
  split; [|split; [|split]].
  - intros evs. apply (run_absent evs start). unfold absent_iff_unpublished.
    simpl. tauto.
  - reflexivity.
  - reflexivity.
  - intros evs. induction evs as [|ev evs IH]; intros sys Hnone; [reflexivity|].
    simpl in Hnone. apply andb_prop in Hnone as [Hev Hrest].
    rewrite run_cons, IH by exact Hrest.
    destruct (apply_current sys ev) as [[_ Hsame]|(p & src & -> & _)];
      [exact Hsame|discriminate].
Qed.

End RateCacheFacts.

(* ===================================================================== *)
(** * Properties of the settings *)
(* ===================================================================== *)

Module ConfigFacts.

Import Config.

Lemma split_nonempty sep s : split sep s <> [].
Proof.
  destruct s as [|c rest]; simpl; [discriminate|].
  destruct (Ascii.eqb c sep); [discriminate|].
  destruct (split sep rest); discriminate.
Qed.

Lemma concat_cons sep x y ys :
  String.concat sep (x :: y :: ys) = (x ++ sep ++ String.concat sep (y :: ys))%string.
Proof. reflexivity. Qed.

Lemma split_concat sep s :
  String.concat (String sep EmptyString) (split sep s) = s.
Proof.
  induction s as [|c rest IH]; [reflexivity|].
  simpl split. destruct (Ascii.eqb_spec c sep) as [->|Hc].
  - pose proof (split_nonempty sep rest) as Hne.
    destruct (split sep rest) as [|y ys]; [contradiction|].
    rewrite concat_cons, IH. reflexivity.
  - pose proof (split_nonempty sep rest) as Hne.
    destruct (split sep rest) as [|y ys]; [contradiction|].
    transitivity (String c (String.concat (String sep EmptyString) (y :: ys)));
      [|now rewrite IH].
    now destruct ys.
Qed.

Lemma split_comma_free sep s :
  Forall (fun piece => contains sep piece = false) (split sep s).
Proof.
  induction s as [|c rest IH]; simpl.
  - constructor; [reflexivity|constructor].
  - destruct (Ascii.eqb c sep) eqn:Hc.
    + constructor; [reflexivity|exact IH].
    + destruct (split sep rest) as [|y ys].
      * constructor; [simpl; now rewrite Hc|constructor].
      * inversion IH as [|? ? Hy Hys]; subst.
        constructor; [simpl; now rewrite Hc|exact Hys].
Qed.

Lemma split_length sep s : length (split sep s) = S (count sep s).
Proof.
  induction s as [|c rest IH]; [reflexivity|].
  simpl. destruct (Ascii.eqb c sep).
  - simpl. now rewrite IH.
  - pose proof (split_nonempty sep rest) as Hne.
    destruct (split sep rest) as [|y ys]; [contradiction|].
    simpl in *. exact IH.
Qed.

Lemma append_assoc (a b c : string) : ((a ++ b) ++ c = a ++ (b ++ c))%string.
Proof. induction a as [|x a IH]; simpl; [reflexivity|now rewrite IH]. Qed.

Lemma contains_append c a b :
  contains c (a ++ b)%string = contains c a || contains c b.
Proof.
  induction a as [|x a IH]; simpl; [reflexivity|].
  now rewrite IH, orb_assoc.
Qed.

(** A piece with no separator in it is cut off whole. *)
Lemma split_append sep a b :
  contains sep a = false ->
  split sep (a ++ String sep b)%string = a :: split sep b.
Proof.
  induction a as [|x a IH]; simpl.
  - intros _. now rewrite Ascii.eqb_refl.
  - intros H. apply orb_false_elim in H as [Hx Ha].
    rewrite Hx, (IH Ha). reflexivity.
Qed.

Lemma split_whole sep piece :
  contains sep piece = false -> split sep piece = [piece].
Proof.
  induction piece as [|c rest IH]; simpl; [reflexivity|].
  intros H. apply orb_false_elim in H as [Hc Hrest].
  now rewrite Hc, (IH Hrest).
Qed.

(** Joining comma-free pieces and cutting again gives the pieces back. *)
Lemma concat_split sep pieces :
  pieces <> [] ->
  Forall (fun piece => contains sep piece = false) pieces ->
  split sep (String.concat (String sep EmptyString) pieces) = pieces.
Proof.
  induction pieces as [|x rest IH]; intros Hne Hfree; [contradiction|].
  inversion Hfree as [|? ? Hx Hrest]; subst.
  destruct rest as [|y ys].
  - simpl. now apply split_whole.
  - rewrite concat_cons.
    change ((x ++ String sep EmptyString
               ++ String.concat (String sep EmptyString) (y :: ys))%string)
      with ((x ++ String sep (String.concat (String sep EmptyString) (y :: ys)))%string).
    rewrite (split_append sep x _ Hx), IH; [reflexivity|discriminate|exact Hrest].
Qed.

(** X1.  The allowed origins are exactly the pieces of the configured
    string between its commas: joined with commas they give the string
    back, and they are the only way to write the string as comma-free
    pieces joined by commas.  So the string is cut at every comma and
    nowhere else, and nothing is trimmed, dropped or reordered. *)
Theorem cors_origins_join environ :
  String.concat "," (cors_origins environ) = cors_setting environ
  /\ (forall pieces,
        pieces <> [] ->
        Forall (fun piece => contains comma piece = false) pieces ->
        String.concat "," pieces = cors_setting environ ->
        cors_origins environ = pieces).
Proof.
  split; [apply split_concat|].
  intros pieces Hne Hfree Hjoin.
  unfold cors_origins. rewrite <- Hjoin.
  exact (concat_split comma pieces Hne Hfree).
Qed.

(** X2.  Whatever the environment holds, there is at least one allowed
    origin, there is one more origin than the configured string has commas,
    and no origin has a comma in it; a variable set to the empty string
    gives the single origin [""] and not the default list. *)
Theorem cors_origins_shape environ :
  cors_origins environ <> []
  /\ length (cors_origins environ) = S (count comma (cors_setting environ))
  /\ Forall (fun origin => contains comma origin = false) (cors_origins environ)
  /\ (environ "CORS_ORIGINS" = Some ""%string -> cors_origins environ = [""%string]).
Proof.
  split; [apply split_nonempty|].
  split; [apply split_length|].
  split; [apply split_comma_free|].
  intros Hset. unfold cors_origins, cors_setting, getenv. now rewrite Hset.
Qed.

Lemma default_origins environ :
  environ "CORS_ORIGINS" = None ->
  contains comma (domain environ) = false ->
  cors_origins environ
  = [("https://" ++ domain environ)%string; "http://localhost:3000"; "http://127.0.0.1:3000"].
Proof.
  intros Hunset Hdomain.
  unfold cors_origins, cors_setting, getenv. rewrite Hunset.
  change (("https://" ++ domain environ ++ ",http://localhost:3000,http://127.0.0.1:3000")%string)
    with (("https://" ++ (domain environ ++ String comma "http://localhost:3000,http://127.0.0.1:3000"))%string).
  rewrite <- append_assoc, split_append.
  - reflexivity.
  - rewrite contains_append, Hdomain. reflexivity.
Qed.

(** X3.  With [CORS_ORIGINS] unset and a [DOMAIN] free of commas (or
    unset, which stands for localhost), exactly three origins are allowed:
    the domain over https, and ports 3000 of localhost and of 127.0.0.1
    over http.  With [CORS_ORIGINS] set, [DOMAIN] plays no part. *)
Theorem cors_origins_default environ :
  (environ "CORS_ORIGINS" = None ->
   contains comma (domain environ) = false ->
   cors_origins environ
   = [("https://" ++ domain environ)%string; "http://localhost:3000"; "http://127.0.0.1:3000"])
  /\ (forall environ' : string -> option string,
        environ "CORS_ORIGINS" <> None ->
        environ' "CORS_ORIGINS" = environ "CORS_ORIGINS" ->
        cors_origins environ' = cors_origins environ).
Proof.
  split; [apply default_origins|].
  intros environ' Hset Hsame.
  unfold cors_origins, cors_setting, getenv. rewrite Hsame.
  destruct (environ "CORS_ORIGINS"); [reflexivity|contradiction].
Qed.

(** X4.  With [CORS_ORIGINS] unset, the address the startup hook
    announces is one of the allowed origins whenever [DOMAIN] names a host
    other than localhost; for localhost it is one exactly when [PORT] is
    3000, so not with the default port 8000. *)
Theorem announced_address_and_allowed_origins environ :
  environ "CORS_ORIGINS" = None ->
  contains comma (domain environ) = false ->
  (domain environ <> "localhost"%string ->
   base_url environ = ("https://" ++ domain environ)%string
   /\ In (base_url environ) (cors_origins environ))
  /\ (domain environ = "localhost"%string ->
      base_url environ = ("http://localhost:" ++ getenv environ "PORT" "8000")%string
      /\ (In (base_url environ) (cors_origins environ)
          <-> getenv environ "PORT" "8000" = "3000"%string)).
Proof.
  intros Hunset Hdomain.
  rewrite (default_origins environ Hunset Hdomain).
  unfold base_url. fold (domain environ).
  split.
  - intros Hother.
    destruct (String.eqb_spec (domain environ) "localhost") as [Heq|_]; [contradiction|].
    split; [reflexivity|]. left. reflexivity.
  - intros Hlocal. rewrite Hlocal. simpl String.eqb. cbv iota.
    split; [reflexivity|]. split.
    + intros [H|[H|[H|[]]]]; try discriminate H.
      simpl in H. now injection H as ->.
    + intros ->. right. left. reflexivity.
Qed.

(** The theorem in a deployment that sets only [DOMAIN]. *)
Lemma announced_address_and_allowed_origins_witness :
  let environ := environment [("DOMAIN", "rates.example.org")] in
  base_url environ = "https://rates.example.org"%string
  /\ In (base_url environ) (cors_origins environ).
Proof.
  intros environ.
  destruct (announced_address_and_allowed_origins environ eq_refl eq_refl) as [Hother _].
  apply Hother. discriminate.
Defined.

End ConfigFacts.

(* ===================================================================== *)
(** * Further properties of the warmer loop *)
(* ===================================================================== *)

Module WarmerLogFacts.

Import Warmer WarmerLog Scenario.

Section Loop.

Context {V : Type}.

Implicit Types (env : nat -> option (call V)) (s : state V).

Lemma lines_of_snoc (h : list (attempt V)) a :
  lines_of (h ++ [a]) = lines_of h ++ line_of a.
Proof. unfold lines_of. rewrite flat_map_app. simpl. now rewrite app_nil_r. Qed.

Lemma step_log env s s' :
  log_invariant s -> step env s = Next s' -> log_invariant s'.
Proof.
  intros [Hout Hlen] Hstep. unfold step in Hstep.
  destruct (at_pc s) eqn:Hat.
  - injection Hstep as <-. now split.
  - destruct (env (length (history s))) as [c|]; [|discriminate].
    injection Hstep as <-. unfold log_invariant, await_fetch.
    destruct (result c) as [v|e] eqn:Hr; simpl.
    + rewrite lines_of_snoc, Hout. unfold line_of. simpl.
      split; [reflexivity|]. rewrite !length_app. simpl.
      rewrite <- Hout. lia.
    + destruct (Py.isinstance_Exception e) eqn:He; simpl.
      * rewrite lines_of_snoc, Hout. unfold line_of. simpl. rewrite He.
        split; [reflexivity|]. rewrite !length_app. simpl.
        rewrite <- Hout. lia.
      * rewrite lines_of_snoc. unfold line_of. simpl. rewrite He, app_nil_r.
        split; [exact Hout|]. rewrite length_app. simpl. lia.
  - injection Hstep as <-. now split.
  - discriminate.
Qed.

Lemma exec_log env fuel s :
  log_invariant s -> log_invariant (exec fuel env s).
Proof.
  revert s. induction fuel as [|fuel IH]; intros s Hinv; [exact Hinv|].
  simpl. destruct (step env s) as [s'| |e] eqn:Hstep; try exact Hinv.
  apply IH. exact (step_log env s s' Hinv Hstep).
Qed.

(** X10.  In every run of the task, whatever its calls do, the printed
    lines are exactly those of the attempts made, in order: the refreshed
    line for a call that returned, the failure line with the exception's
    text for one that raised an instance of [Exception].  Each attempt has
    its line, but for the one whose exception ended the task. *)
Theorem one_line_per_attempt env fuel :
  stdout (background_cache_warmer fuel env)
  = lines_of (history (background_cache_warmer fuel env))
  /\ match at_pc (background_cache_warmer fuel env) with
     | Exited _ =>
         S (length (stdout (background_cache_warmer fuel env)))
         = length (history (background_cache_warmer fuel env))
     | _ =>
         length (stdout (background_cache_warmer fuel env))
         = length (history (background_cache_warmer fuel env))
     end.
Proof.
  apply (exec_log env fuel init). now split.
Qed.

Lemma step_timing env s s' :
  timing_invariant s -> step env s = Next s' -> timing_invariant s'.
Proof.
  intros (Hle & Hfirst & Hpc) Hstep. unfold step in Hstep.
  destruct (at_pc s) eqn:Hat.
  - injection Hstep as <-. destruct Hpc as [Hclock Hempty].
    repeat split; simpl; try assumption.
    intros _. now rewrite Hclock.
  - destruct (env (length (history s))) as [c|]; [|discriminate].
    injection Hstep as <-.
    assert (Hhist := WarmerFacts.await_fetch_history c s).
    repeat split.
    + intros a. rewrite Hhist. intros Hin. apply in_app_or in Hin as [Hin|[<-|[]]].
      * now apply Hle.
      * simpl. lia.
    + intros a. rewrite Hhist. destruct (history s) as [|a0 h] eqn:Hh.
      * simpl. intros [= <-]. simpl. now apply Hpc.
      * simpl. intros [= <-]. now apply Hfirst.
    + assert (Hne : history (await_fetch c s) <> []).
      { rewrite Hhist. intros Hnil. now apply app_eq_nil in Hnil as [_ Hnil]. }
      destruct (at_pc (await_fetch c s)) eqn:Hat'; try exact Hne.
      * unfold await_fetch in Hat'. destruct (result c) as [v|e]; [discriminate|].
        destruct (Py.isinstance_Exception e); discriminate.
      * intros Hnil. contradiction.
  - injection Hstep as <-. repeat split; simpl; try assumption.
    intros Hnil. contradiction.
  - discriminate.
Qed.

Lemma exec_timing env fuel s :
  timing_invariant s -> timing_invariant (exec fuel env s).
Proof.
  revert s. induction fuel as [|fuel IH]; intros s Hinv; [exact Hinv|].
  simpl. destruct (step env s) as [s'| |e] eqn:Hstep; try exact Hinv.
  apply IH. exact (step_timing env s s' Hinv Hstep).
Qed.

Lemma init_timing : timing_invariant (@init V).
Proof.
  repeat split; simpl; try discriminate. intros a [].
Qed.

(** X11.  In every run of the task, the attempt numbered [k] (from 0)
    starts no earlier than [5 + 60 * k] and ends no earlier than it
    starts: the first attempt waits for the startup delay, and the task
    calls upstream at most once per 60 units, however fast the calls
    conclude and whether they succeed or fail. *)
Theorem attempts_are_rate_limited env fuel k a :
  nth_error (history (background_cache_warmer fuel env)) k = Some a ->
  5 + 60 * k <= started a /\ started a <= ended a.
Proof.
  destruct (exec_timing env fuel init init_timing) as (Hle & Hfirst & _).
  pose proof (proj1 (WarmerFacts.exec_invariant env fuel init WarmerFacts.init_invariant))
    as Hspaced.
  fold (background_cache_warmer fuel env) in Hle, Hfirst, Hspaced.
  revert a. induction k as [|k IH]; intros a Ha.
  - split; [|apply Hle; eapply nth_error_In; exact Ha].
    rewrite (Hfirst a Ha). unfold startup_delay. lia.
  - assert (Hprev : exists b, nth_error (history (background_cache_warmer fuel env)) k = Some b).
    { destruct (nth_error (history (background_cache_warmer fuel env)) k) as [b|] eqn:Hb;
        [now exists b|].
      apply nth_error_None in Hb.
      assert (S k < length (history (background_cache_warmer fuel env)))
        by (apply nth_error_Some; congruence).
      lia. }
    destruct Hprev as [b Hb]. destruct (IH b Hb) as [Hstart Hend].
    pose proof (Hspaced k b a Hb Ha) as Hgap. unfold refresh_delay in Hgap.
    split; [lia|]. apply Hle. eapply nth_error_In. exact Ha.
Qed.

End Loop.

(** The theorem at the third attempt of a source whose calls take 0, 1, 2,
    ... units: it starts at 126, not before 125. *)
Lemma attempts_are_rate_limited_witness :
  nth_error (history (background_cache_warmer 9 flaky_source)) 2
  = Some (Attempt 126 128 (Py.Returned tt))
  /\ 5 + 60 * 2 <= 126 /\ 126 <= 128.
Proof.
  split; [reflexivity|].
  exact (attempts_are_rate_limited flaky_source 9 2 _ eq_refl).
Defined.

End WarmerLogFacts.

(* ===================================================================== *)
(** * The calls of the migration block *)
(* ===================================================================== *)

Module MigrationFacts.

Import Startup Tracing.

Section Block.

Context {DB : Type}.
Variable sql : sqlite3_driver DB.

(** Reading the column names changes nothing; it gives the names, among
    which [formula] is found exactly when the rows list it, or raises an
    [IndexError]. *)
Lemma second_fields_result {W : Type} rows (w : world W) :
  (exists columns,
      second_fields rows w = (Py.Returned columns, w)
      /\ existsb (String.eqb "formula") columns = lists_formula rows)
  \/ (exists e, second_fields rows w = (Py.Raised e, w)).
Proof.
  induction rows as [|col rest IH]; cbn [second_fields].
  - left. exists []. now split.
  - assert (Hcons : lists_formula (col :: rest)
                    = (match nth_error col 1 with
                       | Some name => String.eqb "formula" name
                       | None => false
                       end || lists_formula rest)%bool) by reflexivity.
    rewrite Hcons.
    destruct (nth_error col 1) as [name|]; [|right; eexists; reflexivity].
    unfold bind. destruct IH as [(columns & -> & Hsame)|(e & ->)].
    + left. exists (name :: columns). split; [reflexivity|].
      cbn [existsb]. now rewrite Hsame.
    + right. now exists e.
Qed.

Ltac call_of op :=
  match goal with
  | |- context [op sql ?d] =>
      let r := fresh "r" in let d' := fresh "d" in let H := fresh "Hcall" in
      destruct (op sql d) as [[r|r] d'] eqn:H; simpl
  | |- context [op sql ?a ?d] =>
      let r := fresh "r" in let d' := fresh "d" in let H := fresh "Hcall" in
      destruct (op sql a d) as [[r|r] d'] eqn:H; simpl
  end.

Ltac found flag :=
  exists flag; eexists; eexists;
  split; [rewrite <- ?app_assoc; simpl; reflexivity|];
  split; [first [rewrite <- ?app_assoc; simpl; reflexivity
                |symmetry; apply app_nil_r]|].

#[local] Opaque String.eqb.

Ltac failing k :=
  match goal with
  | Hcall : _ = (inl ?err, _) |- _ => exact (k (to_exc err))
  end.

Lemma migration_outcome (w : world (DB * log)) :
  exists formula done notes,
    calls (snd (migration (recording sql) w)) = calls w ++ done
    /\ out (snd (migration (recording sql) w)) = out w ++ notes
    /\ outcome formula done notes
    /\ (formula = true ->
        exists d rows d', fetchall sql d = (inr rows, d') /\ lists_formula rows = true)
    /\ (In (returned Close) done -> formula = false ->
        exists d rows d', fetchall sql d = (inr rows, d') /\ lists_formula rows = false).
Proof.
  rewrite StartupFacts.migration_returns.
  unfold migration_body, bind, lift, recording, recorded, calls. simpl.
  call_of (@connect DB).
  { found false. split; [failing (fun e => Failed_inspecting 0 _ e eq_refl)|].
    split; [discriminate|]. intros [H|[]]; discriminate H. }
  call_of (@cursor DB).
  { found false. split; [failing (fun e => Failed_inspecting 1 _ e eq_refl)|].
    split; [discriminate|]. intros [H|[H|[]]]; discriminate H. }
  call_of (@execute DB).
  { found false. split; [failing (fun e => Failed_inspecting 2 _ e eq_refl)|].
    split; [discriminate|]. intros [H|[H|[H|[]]]]; discriminate H. }
  call_of (@fetchall DB).
  { found false. split; [failing (fun e => Failed_inspecting 3 _ e eq_refl)|].
    split; [discriminate|]. intros [H|[H|[H|[H|[]]]]]; discriminate H. }
  match goal with
  | |- context [@second_fields _ ?rows ?w0] =>
      destruct (second_fields_result rows w0) as [(columns & -> & Hsame)|(e & ->)]
  end; simpl.
  2:{ found false. split; [exact (Bad_row e)|].
      split; [discriminate|]. intros [H|[H|[H|[H|[]]]]]; discriminate H. }
  destruct (existsb (String.eqb "formula") columns) eqn:Hformula; simpl.
  - assert (Hrows : exists d rows d', fetchall sql d = (inr rows, d')
                                      /\ lists_formula rows = true).
    { do 3 eexists. split; [eassumption|]. now rewrite <- Hsame. }
    call_of (@execute DB).
    { found true. split; [failing (fun e => Failed_rebuilding 0 _ e eq_refl)|].
      split; [intros _; exact Hrows|discriminate]. }
    call_of (@execute DB).
    { found true. split; [failing (fun e => Failed_rebuilding 1 _ e eq_refl)|].
      split; [intros _; exact Hrows|discriminate]. }
    call_of (@execute DB).
    { found true. split; [failing (fun e => Failed_rebuilding 2 _ e eq_refl)|].
      split; [intros _; exact Hrows|discriminate]. }
    call_of (@execute DB).
    { found true. split; [failing (fun e => Failed_rebuilding 3 _ e eq_refl)|].
      split; [intros _; exact Hrows|discriminate]. }
    call_of (@commit DB).
    { found true. split; [failing (fun e => Failed_rebuilding 4 _ e eq_refl)|].
      split; [intros _; exact Hrows|discriminate]. }
    call_of (@close DB).
    { found true. split; [failing Failed_closing_rebuilt|].
      split; [intros _; exact Hrows|discriminate]. }
    found true. split; [exact Rebuilt|].
    split; [intros _; exact Hrows|discriminate].
  - assert (Hrows : exists d rows d', fetchall sql d = (inr rows, d')
                                      /\ lists_formula rows = false).
    { do 3 eexists. split; [eassumption|]. now rewrite <- Hsame. }
    call_of (@close DB).
    { found false. split; [failing Failed_closing|].
      split; [discriminate|]. intros _ _. exact Hrows. }
    found false. split; [exact Nothing_to_do|].
    split; [discriminate|]. intros _ _. exact Hrows.
Qed.

Lemma erase_attach (v : world DB) : erase (attach v) = v.
Proof. now destruct v. Qed.

Lemma simulates_bind {A B : Type} (m' : M (world (DB * log)) A) m
  (k' : A -> M (world (DB * log)) B) k :
  simulates m' m -> (forall a, simulates (k' a) (k a)) ->
  simulates (bind m' k') (bind m k).
Proof.
  intros Hm Hk w. unfold bind. rewrite (Hm w).
  destruct (m' w) as [[a|e] w1]; simpl; [apply Hk|reflexivity].
Qed.

Lemma simulates_lift {A : Type} what (op : DB -> (sqlite3_error + A) * DB) :
  simulates (lift (recorded what op)) (lift op).
Proof.
  intros w. unfold lift, recorded. simpl.
  now destruct (op (fst (sqlite w))) as [[e|a] d].
Qed.

Lemma second_fields_pure rows :
  exists r, forall (W : Type) (w : world W), second_fields rows w = (r, w).
Proof.
  induction rows as [|col rest [r IH]]; cbn [second_fields].
  - now exists (Py.Returned []).
  - destruct (nth_error col 1) as [name|]; [|eexists; reflexivity].
    destruct r as [names|e].
    + exists (Py.Returned (name :: names)). intros W w.
      unfold bind. now rewrite IH.
    + exists (Py.Raised e). intros W w. unfold bind. now rewrite IH.
Qed.

Lemma simulates_second_fields rows :
  simulates (second_fields rows) (@second_fields DB rows).
Proof.
  intros w. destruct (second_fields_pure rows) as [r Hr]. now rewrite !Hr.
Qed.

Lemma simulates_print line : simulates (print line) (@print DB line).
Proof. now intros w. Qed.

Lemma simulates_ret {A : Type} (a : A) : simulates (ret a) (@ret (world DB) A a).
Proof. now intros w. Qed.

(** The recording driver is transparent: the block returns and prints
    with it what it returns and prints with the driver itself, and leaves
    the database as the driver itself leaves it. *)
Lemma recording_is_transparent : simulates (migration (recording sql)) (migration sql).
Proof.
  assert (Hbody : simulates (migration_body (recording sql)) (migration_body sql)).
  { unfold migration_body. simpl.
    repeat (apply simulates_bind;
            [first [apply simulates_lift|apply simulates_second_fields]|intros]).
    apply simulates_bind; [|intros; apply simulates_lift].
    destruct (existsb _ _); [|apply simulates_ret].
    repeat (apply simulates_bind; [apply simulates_lift|intros]).
    apply simulates_print. }
  intros w. rewrite !StartupFacts.migration_returns, (Hbody w).
  now destruct (migration_body (recording sql) w) as [[[]|e] w'].
Qed.

Ltac which_call :=
  match goal with
  | H : nth_error _ ?n = Some _ |- _ =>
      unfold inspection, rebuild in H;
      repeat (destruct n as [|n]; [injection H as <-|simpl in H]);
      try (destruct n; discriminate H)
  end.

Ltac initial_part :=
  first [exists 0; simpl; tauto | exists 1; simpl; tauto | exists 2; simpl; tauto
        |exists 3; simpl; tauto | exists 4; simpl; tauto | exists 5; simpl; tauto
        |exists 6; simpl; tauto | exists 7; simpl; tauto | exists 8; simpl; tauto
        |exists 9; simpl; tauto | exists 10; simpl; tauto].

Ltac member H :=
  simpl in H;
  repeat (destruct H as [H|H];
          [first [discriminate H | injection H as <-; try reflexivity
                 | injection H as <- <-; try reflexivity]|]);
  try contradiction.

(** X5.  The block makes its calls in the order of the source and stops
    at the first that fails: the calls made are an initial part of one of
    its two runs, every call but the last returned, and a call that failed
    is the last one made, so after a failure nothing is retried or undone
    and the connection is not closed.  (The recording driver changes
    nothing in what the block returns, prints or does to the database.) *)
Theorem migration_stops_at_the_first_failure (w : world (DB * log)) :
  migration sql (erase w)
  = (fst (migration (recording sql) w), erase (snd (migration (recording sql) w)))
  /\ exists done,
       calls (snd (migration (recording sql) w)) = calls w ++ done
       /\ (exists n, map fst done = firstn n plain_run
                     \/ map fst done = firstn n rebuilding_run)
       /\ forallb snd (removelast done) = true
       /\ (forall c, In (failed c) done -> last done (returned Close) = failed c).
Proof.
  split; [apply recording_is_transparent|].
  destruct (migration_outcome w) as (formula & done & notes & Hcalls & _ & Hout & _).
  exists done. split; [exact Hcalls|].
  inversion Hout; subst; try which_call.
  all: split; [initial_part|]; split; [reflexivity|].
  all: intros c0 Hin; unfold failed, returned in *; member Hin.
Qed.

(** X6.  [DROP TABLE alert_configs] is executed only after the new
    table was created and the rows were copied into it, both without
    error; the commit is attempted only after the drop and the rename
    returned; and the line that reports the removal is printed exactly
    when the commit returned. *)
Theorem table_is_dropped_only_after_the_copy (w : world (DB * log)) :
  exists done notes,
    calls (snd (migration (recording sql) w)) = calls w ++ done
    /\ out (snd (migration (recording sql) w)) = out w ++ notes
    /\ (forall b,
          In (Execute "DROP TABLE alert_configs", b) done ->
          In (returned (Execute create_alert_configs_new)) done
          /\ In (returned (Execute copy_alert_configs)) done)
    /\ (forall b,
          In (Commit, b) done ->
          In (returned (Execute "DROP TABLE alert_configs")) done
          /\ In (returned (Execute "ALTER TABLE alert_configs_new RENAME TO alert_configs"))
                done)
    /\ (In removed_line notes <-> In (returned Commit) done).
Proof.
  destruct (migration_outcome w) as (formula & done & notes & Hcalls & Hprinted & Hout & _).
  exists done, notes. split; [exact Hcalls|]. split; [exact Hprinted|].
  inversion Hout; subst; try which_call.
  all: unfold failed, returned, removed_line, note_line in *.
  all: split; [intros b Hin; member Hin; simpl; tauto|].
  all: split; [intros b Hin; member Hin; simpl; tauto|].
  all: split; intros Hin; member Hin; simpl; tauto.
Qed.

(** X7.  When the rows of [PRAGMA table_info] never list a [formula]
    column, the block leaves the schema alone: it executes no statement
    but the [PRAGMA], never commits and never reports a removal, whatever
    else fails. *)
Theorem migrated_database_is_left_alone (w : world (DB * log)) :
  (forall d rows d', fetchall sql d = (inr rows, d') -> lists_formula rows = false) ->
  exists done notes,
    calls (snd (migration (recording sql) w)) = calls w ++ done
    /\ out (snd (migration (recording sql) w)) = out w ++ notes
    /\ (exists n, map fst done = firstn n plain_run)
    /\ (forall statement b,
          In (Execute statement, b) done ->
          statement = "PRAGMA table_info(alert_configs)"%string)
    /\ (forall b, ~ In (Commit, b) done)
    /\ ~ In removed_line notes.
Proof.
  intros Hnever.
  destruct (migration_outcome w)
    as (formula & done & notes & Hcalls & Hprinted & Hout & Hformula & _).
  exists done, notes. split; [exact Hcalls|]. split; [exact Hprinted|].
  assert (Hplain : formula = false).
  { destruct formula; [|reflexivity].
    destruct (Hformula eq_refl) as (d & rows & d' & Hfetch & Hlists).
    rewrite (Hnever _ _ _ Hfetch) in Hlists. discriminate Hlists. }
  subst formula.
  inversion Hout; subst; try which_call.
  all: unfold failed, returned, removed_line, note_line in *.
  all: split; [initial_part|].
  all: split; [intros statement b Hin; member Hin|].
  all: split; [intros b Hin; member Hin|].
  all: intros Hin; member Hin.
Qed.

End Block.

(** The theorem at a database that was migrated before: five calls, all
    returning, and nothing printed. *)
Lemma migrated_database_is_left_alone_witness :
  let w := attach (Scenario.fresh_world 0 []) in
  exists done notes,
    calls (snd (migration (recording migrated) w)) = calls w ++ done
    /\ out (snd (migration (recording migrated) w)) = out w ++ notes
    /\ (exists n, map fst done = firstn n plain_run)
    /\ (forall statement b,
          In (Execute statement, b) done ->
          statement = "PRAGMA table_info(alert_configs)"%string)
    /\ (forall b, ~ In (Commit, b) done)
    /\ ~ In removed_line notes.
Proof.
  intros w. apply (migrated_database_is_left_alone migrated w).
  intros d rows d' Hfetch. injection Hfetch as <- _. reflexivity.
Defined.

End MigrationFacts.

(* ===================================================================== *)
(** * What the startup hook prints and starts *)
(* ===================================================================== *)

Module HookFacts.

Import Startup Tracing.

Section Hook.

Context {DB : Type}.
Variable sql : sqlite3_driver DB.
Variable hash_password : string -> string.

Implicit Types (v w : world DB).

Lemma bind_prints_and_queries {A B : Type} (m : M (world DB) A) (k : A -> M (world DB) B) :
  prints_and_queries_only m -> (forall a, prints_and_queries_only (k a)) ->
  prints_and_queries_only (bind m k).
Proof.
  intros Hm Hk w. unfold bind.
  destruct (Hm w) as (lines & d & Hw).
  destruct (m w) as [[a|e] w1]; simpl in Hw.
  - destruct (Hk a w1) as (lines' & d' & Hw'). rewrite Hw'. subst w1. simpl.
    exists (lines ++ lines'), d'. now rewrite app_assoc.
  - now exists lines, d.
Qed.

Lemma lift_prints_and_queries {A : Type} (op : DB -> (sqlite3_error + A) * DB) :
  prints_and_queries_only (lift op).
Proof.
  intros w. unfold lift. destruct (op (sqlite w)) as [[e|a] d]; simpl.
  all: exists [], d; now rewrite app_nil_r.
Qed.

Lemma print_prints_and_queries line : prints_and_queries_only (@print DB line).
Proof. intros w. now exists [line], (sqlite w). Qed.

Lemma unchanged_prints_and_queries {A : Type} (m : M (world DB) A) :
  (forall w, snd (m w) = w) -> prints_and_queries_only m.
Proof.
  intros Hm w. rewrite Hm. exists [], (sqlite w). rewrite app_nil_r. now destruct w.
Qed.

Lemma second_fields_unchanged rows w : snd (@second_fields DB rows w) = w.
Proof.
  destruct (MigrationFacts.second_fields_pure rows) as [r Hr]. now rewrite Hr.
Qed.

Lemma migration_prints_and_queries : prints_and_queries_only (migration sql).
Proof.
  assert (Hbody : prints_and_queries_only (migration_body sql)).
  { unfold migration_body.
    repeat (apply bind_prints_and_queries;
            [first [apply lift_prints_and_queries
                   |apply unchanged_prints_and_queries, second_fields_unchanged]
            |intros]).
    apply bind_prints_and_queries; [|intros; apply lift_prints_and_queries].
    destruct (existsb _ _); [|now apply unchanged_prints_and_queries].
    repeat (apply bind_prints_and_queries; [apply lift_prints_and_queries|intros]).
    apply print_prints_and_queries. }
  intros w. rewrite StartupFacts.migration_returns.
  destruct (Hbody w) as (lines & d & Hw).
  destruct (migration_body sql w) as [[[]|e] w']; simpl in *.
  - now exists lines, d.
  - subst w'. simpl. exists (lines ++ [note_line e]), d. now rewrite app_assoc.
Qed.

(** Seeding, as a change of the world. *)
Lemma seed_users_world w :
  seed_users hash_password w
  = (Py.Returned tt,
     World (out w ++ match users w with [] => [created_line] | _ :: _ => [] end)
           (environ w) (tables_created w) (tasks w) (sqlite w)
           match users w with
           | [] => initial_rows hash_password w
           | _ :: _ => users w
           end
           []).
Proof.
  unfold seed_users, bind, get_db_session, try_finally, query_User_count.
  simpl. destruct (users w) as [|u rest] eqn:Hu; simpl.
  - reflexivity.
  - now rewrite app_nil_r.
Qed.

Lemma announcement_environ v w : environ v = environ w -> announcement v = announcement w.
Proof.
  intros Henv. unfold announcement, announce, bind, getenv, print. simpl.
  now rewrite Henv.
Qed.

(** X9.  Whatever the migration block does, the hook has created the
    tables and handed exactly one coroutine, the cache warmer, to the event
    loop, and it leaves no user added to the session uncommitted. *)
Theorem startup_event_starts_the_warmer v :
  tasks (snd (startup_event sql hash_password v)) = tasks v ++ ["background_cache_warmer"]
  /\ tables_created (snd (startup_event sql hash_password v)) = true
  /\ pending (snd (startup_event sql hash_password v)) = []
  /\ environ (snd (startup_event sql hash_password v)) = environ v.
Proof.
  destruct (StartupFacts.startup_event_runs sql hash_password v)
    as (wm & w2 & Hm & Hseed & -> & _ & _).
  destruct (migration_prints_and_queries (snd (prelude v))) as (lines & d & Hwm).
  rewrite Hm in Hwm. simpl in Hwm.
  rewrite seed_users_world in Hseed. injection Hseed as <-.
  rewrite StartupFacts.announce_spec. subst wm. simpl. now repeat split.
Qed.

(** The four lines of lines 150-153, with the address of lines 145-148. *)
Lemma announcement_lines v :
  announcement v
  = ["🚀 Distill Webhook Visualiser started successfully!";
     ("📡 Webhook endpoint: " ++ Config.base_url (environ v) ++ "/webhook/distill")%string;
     ("🌐 Dashboard: " ++ Config.base_url (environ v) ++ "/")%string;
     ("📚 API Docs: " ++ Config.base_url (environ v) ++ "/docs")%string].
Proof.
  unfold announcement, announce, bind, getenv, print, Config.base_url, Config.getenv.
  cbn [fst snd out environ app].
  destruct (environ v "DOMAIN") as [domain|]; destruct (environ v "PORT") as [port|];
    reflexivity.
Qed.

(** X8.  What the hook prints, in order: at most two lines of the
    migration block (the removal of the column, a migration note, or the
    removal followed by a note when only closing failed), then the line on
    the initial users exactly when the user table was empty, then the four
    lines of the announcement: the start-up line, and the webhook
    endpoint, the dashboard and the API documentation under the announced
    address. *)
Theorem startup_event_output v :
  exists notes,
    out (snd (startup_event sql hash_password v))
    = out v ++ notes
      ++ match users v with [] => [created_line] | _ :: _ => [] end
      ++ ["🚀 Distill Webhook Visualiser started successfully!";
          ("📡 Webhook endpoint: " ++ Config.base_url (environ v)
             ++ "/webhook/distill")%string;
          ("🌐 Dashboard: " ++ Config.base_url (environ v) ++ "/")%string;
          ("📚 API Docs: " ++ Config.base_url (environ v) ++ "/docs")%string]
    /\ (notes = [] \/ notes = [removed_line]
        \/ exists e, notes = [note_line e] \/ notes = [removed_line; note_line e]).
Proof.
  destruct (StartupFacts.startup_event_runs sql hash_password v)
    as (wm & w2 & Hm & Hseed & -> & _ & Henv).
  destruct (MigrationFacts.migration_outcome sql (attach (snd (prelude v))))
    as (formula & done & notes & _ & Hprinted & Hout & _).
  pose proof (MigrationFacts.recording_is_transparent sql (attach (snd (prelude v))))
    as Hsame.
  rewrite MigrationFacts.erase_attach, Hm in Hsame.
  injection Hsame as _ Hwm.
  assert (Hwm_out : out wm = out v ++ notes).
  { rewrite Hwm.
    transitivity (out (snd (migration (recording sql) (attach (snd (prelude v))))));
      [reflexivity|].
    rewrite Hprinted. reflexivity. }
  assert (Hwm_users : users wm = users v).
  { destruct (StartupFacts.migration_keeps_users sql (snd (prelude v))) as (Hu & _).
    rewrite Hm in Hu. exact Hu. }
  exists notes. split.
  - rewrite seed_users_world in Hseed. injection Hseed as <-.
    rewrite StartupFacts.announce_spec. simpl out.
    rewrite Hwm_out, Hwm_users, <- !app_assoc.
    do 3 f_equal. rewrite <- (announcement_lines v).
    apply announcement_environ. simpl.
    destruct (StartupFacts.migration_keeps_users sql (snd (prelude v))) as (_ & _ & He).
    rewrite Hm in He. exact He.
  - inversion Hout; subst; eauto.
Qed.

End Hook.

(** The calls recorded for the database whose migration fails half way:
    the block stops at the statement that fails. *)
Example half_migrated_calls :
  calls (snd (migration (recording Scenario.half_migrated)
                        (attach (Scenario.fresh_world [] []))))
  = [returned (Connect "data/monitoring.db"); returned Cursor;
     returned (Execute "PRAGMA table_info(alert_configs)"); returned Fetchall;
     failed (Execute create_alert_configs_new)].
Proof. reflexivity. Qed.

End HookFacts.

(* ===================================================================== *)
(** * The per-fetch timeout of the specification *)
(* ===================================================================== *)

Module WarmedFacts.

Import Warmer RateCache FetchPath Warmed.

(** Every attempt in a run is the call the environment gave for its
    number: it ended when the call concluded, with the call's result. *)
Lemma attempts_follow_calls {V : Type} (env : nat -> option (call V)) fuel k a :
  nth_error (history (background_cache_warmer fuel env)) k = Some a ->
  exists c, env k = Some c /\ ended a = started a + duration c /\ concluded a = result c.
Proof.
  unfold background_cache_warmer.
  assert (Hgen : forall s,
             (forall k a, nth_error (history s) k = Some a ->
                exists c, env k = Some c /\ ended a = started a + duration c
                          /\ concluded a = result c) ->
             forall k a, nth_error (history (exec fuel env s)) k = Some a ->
                exists c, env k = Some c /\ ended a = started a + duration c
                          /\ concluded a = result c).
  { induction fuel as [|fuel IH]; intros s Hs; [exact Hs|].
    simpl. destruct (step env s) as [s'| |e] eqn:Hstep; try exact Hs.
    apply IH. unfold step in Hstep. destruct (at_pc s).
    - injection Hstep as <-. exact Hs.
    - destruct (env (length (history s))) as [c|] eqn:Hc; [|discriminate].
      injection Hstep as <-. intros j b. rewrite WarmerFacts.await_fetch_history.
      destruct (Nat.lt_ge_cases j (length (history s))) as [Hin|Hout].
      + rewrite nth_error_app1 by exact Hin. apply Hs.
      + rewrite nth_error_app2 by exact Hout.
        destruct (j - length (history s)) as [|m] eqn:Hj.
        * intros [= <-]. exists c. replace j with (length (history s)) by lia.
          now repeat split.
        * destruct m; discriminate.
    - injection Hstep as <-. exact Hs.
    - discriminate. }
  apply Hgen. intros j b Hb. destruct j; discriminate.
Qed.

Lemma bounded_fetch_le timeout u : fst (bounded_fetch timeout u) <= timeout.
Proof.
  unfold bounded_fetch. destruct (takes u) as [d|]; [|simpl; lia].
  destruct (Nat.ltb_spec timeout d); simpl; lia.
Qed.

Lemma bounded_fetch_exceeds timeout u :
  exceeds timeout u = true ->
  bounded_fetch timeout u = (timeout, Broken Timeout "fetch timed out").
Proof.
  unfold exceeds, bounded_fetch. destruct (takes u) as [d|]; [|reflexivity].
  now intros ->.
Qed.

(** A refresh takes the time of the bounded fetch and leaves the gate
    open. *)
Lemma refresh_completes timeout u sys :
  now (run (refresh timeout u) sys) = now sys + fst (bounded_fetch timeout u)
  /\ inFlight (cache (run (refresh timeout u) sys)) = false.
Proof.
  unfold refresh, run. simpl.
  destruct (inFlight (cache sys)) eqn:Hgate; simpl;
    destruct (snd (bounded_fetch timeout u)) as [p src|kd msg]; simpl;
    rewrite ?Hgate; simpl; now split.
Qed.

(** A refresh whose fetch fails records the failure and leaves the
    snapshot as it was. *)
Lemma refresh_failed timeout u sys kd msg :
  snd (bounded_fetch timeout u) = Broken kd msg ->
  lastError (cache (run (refresh timeout u) sys))
  = Some (Error kd msg (now sys + fst (bounded_fetch timeout u)))
  /\ current (cache (run (refresh timeout u) sys)) = current (cache sys)
  /\ published (run (refresh timeout u) sys) = published sys.
Proof.
  intros Hbroken. unfold refresh, run. rewrite Hbroken. simpl.
  destruct (inFlight (cache sys)) eqn:Hgate; simpl; rewrite ?Hgate; simpl;
    now repeat split.
Qed.

Lemma get_cached_rates_survivable timeout source k :
  survivable (get_cached_rates timeout source k) = true.
Proof.
  unfold survivable, get_cached_rates, get_or_refresh_forced, handed. simpl.
  now destruct (read _).
Qed.

Lemma warmer_keeps_ticking timeout source n :
  at_pc (before_attempt n (calls timeout source)) = AtFetch
  /\ length (history (before_attempt n (calls timeout source))) = n.
Proof.
  apply WarmerFacts.loop_alive. intros k _.
  exists (get_cached_rates timeout source k).
  split; [reflexivity|apply get_cached_rates_survivable].
Qed.

Lemma next_tick timeout source n :
  before_attempt (S n) (calls timeout source)
  = sleep refresh_delay AtFetch
      (await_fetch (get_cached_rates timeout source n)
                   (before_attempt n (calls timeout source))).
Proof.
  destruct (warmer_keeps_ticking timeout source n) as [Hpc Hlen].
  rewrite WarmerFacts.before_attempt_S.
  destruct (WarmerFacts.iteration (calls timeout source)
              (before_attempt n (calls timeout source))
              (get_cached_rates timeout source n)) as [-> _];
    [exact Hpc|now rewrite Hlen|apply get_cached_rates_survivable|reflexivity].
Qed.

(** The clock of the loop and the clock of the cache agree at every
    tick. *)
Lemma clocks_agree timeout source n :
  clock (before_attempt n (calls timeout source)) = now (cache_before timeout source n).
Proof.
  induction n as [|n IH]; [reflexivity|].
  rewrite next_tick. simpl clock. rewrite WarmerFacts.await_fetch_clock, IH.
  cbn [cache_before]. unfold get_or_refresh_forced. cbn [snd].
  change (run [Elapse refresh_delay] ?x) with (apply x (Elapse refresh_delay)).
  cbn [apply now].
  destruct (refresh_completes timeout (source n) (cache_before timeout source n)) as [-> _].
  reflexivity.
Qed.

(** C3.  On the fetch path of the specification, where a fetch that
    exceeds the per-fetch timeout is cut off and treated as a failure, the
    loop of [main.py] is never held up for longer than the timeout: it
    stands at its next fetch after every tick, at most timeout + 60 units
    after the tick began, and every attempt ends within the timeout of its
    start.  A fetch that exceeds the timeout, or hangs, takes the timeout
    and no longer, is recorded as a failure of kind timeout at that time,
    leaves the snapshot as it was and the gate open.  While a fetch is in
    flight a reader is handed the current snapshot as before. *)
Theorem per_fetch_timeout_bounds_every_tick timeout source :
  (forall n,
     at_pc (before_attempt n (calls timeout source)) = AtFetch
     /\ length (history (before_attempt n (calls timeout source))) = n
     /\ clock (before_attempt (S n) (calls timeout source))
        <= clock (before_attempt n (calls timeout source)) + timeout + 60)
  /\ (forall fuel k a,
        nth_error (history (background_cache_warmer fuel (calls timeout source))) k = Some a ->
        ended a <= started a + timeout)
  /\ (forall k,
        exceeds timeout (source k) = true ->
        let before := cache_before timeout source k in
        let after := snd (get_or_refresh_forced timeout (source k) before) in
        duration (get_cached_rates timeout source k) = timeout
        /\ now before = clock (before_attempt k (calls timeout source))
        /\ now after = now before + timeout
        /\ inFlight (cache after) = false
        /\ lastError (cache after)
           = Some (Error Timeout "fetch timed out" (now before + timeout))
        /\ read (cache after) = read (cache before))
  /\ (forall sys d, read (cache (run [BeginFetch; Elapse d] sys)) = read (cache sys)).
Proof.
  split; [|split; [|split]].
  - intros n. destruct (warmer_keeps_ticking timeout source n) as [Hpc Hlen].
    split; [exact Hpc|]. split; [exact Hlen|].
    rewrite next_tick. simpl clock. rewrite WarmerFacts.await_fetch_clock.
    unfold get_cached_rates, refresh_delay. simpl duration.
    pose proof (bounded_fetch_le timeout (source n)). lia.
  - intros fuel k a Ha.
    destruct (attempts_follow_calls _ fuel k a Ha) as (c & Hc & -> & _).
    injection Hc as <-. unfold get_cached_rates. simpl duration.
    pose proof (bounded_fetch_le timeout (source k)). lia.
  - intros k Hslow before after.
    pose proof (bounded_fetch_exceeds timeout (source k) Hslow) as Hcut.
    destruct (refresh_completes timeout (source k) before) as [Hnow Hgate].
    destruct (refresh_failed timeout (source k) before Timeout "fetch timed out")
      as (Herr & Hcur & _); [now rewrite Hcut|].
    rewrite Hcut in Hnow, Herr. simpl in Hnow, Herr.
    unfold after, get_or_refresh_forced. cbn [snd].
    repeat split.
    + unfold get_cached_rates. simpl. now rewrite Hcut.
    + unfold before. symmetry. apply clocks_agree.
    + exact Hnow.
    + exact Hgate.
    + exact Herr.
    + unfold read. exact Hcur.
  - intros sys d. unfold run, read. simpl.
    now destruct (inFlight (cache sys)).
Qed.

(** An upstream that hangs on the first call, with a timeout of 10: the
    first attempt runs from 5 to 15 and is printed as a failure, the second
    starts at 75 and publishes at 77. *)
Example hung_first_fetch :
  map started (history (before_attempt 2 (calls 10 hangs_once))) = [5; 75]
  /\ map ended (history (before_attempt 2 (calls 10 hangs_once))) = [15; 77]
  /\ stdout (before_attempt 2 (calls 10 hangs_once))
     = [("⚠ Failed to refresh DEX cache: fetch timed out")%string; refreshed_line]
  /\ lastError (cache (cache_before 10 hangs_once 1))
     = Some (Error Timeout "fetch timed out" 15)
  /\ read (cache (cache_before 10 hangs_once 2))
     = Some (Snapshot [("BTC-PERP", "0.0001")] 77 "dex").
Proof. repeat split. Qed.

End WarmedFacts.

(* ===================================================================== *)
(** * Single flight *)
(* ===================================================================== *)

Module SingleFlightFacts.

Import RateCache FetchPath SingleFlight.

Section Coordination.

Variable staleness_threshold : nat.

Local Abbreviation step := (SingleFlight.step staleness_threshold).
Local Abbreviation steps := (SingleFlight.steps staleness_threshold).

Lemma steps_cons ev evs st : steps (ev :: evs) st = steps evs (step st ev).
Proof. reflexivity. Qed.

Lemma steps_snoc evs ev st : steps (evs ++ [ev]) st = step (steps evs st) ev.
Proof. unfold SingleFlight.steps. now rewrite fold_left_app. Qed.

(** While a fetch is in flight, forced requests attach to it: no upstream
    call is started and nobody is answered yet. *)
Lemma requests_attach evs st :
  inFlight (cache (sys st)) = true ->
  forallb forced_or_wait evs = true ->
  inFlight (cache (sys (steps evs st))) = true
  /\ upstream_calls (steps evs st) = upstream_calls st
  /\ running (steps evs st) = running st
  /\ waiting (steps evs st) = waiting st ++ forced_callers evs
  /\ answered (steps evs st) = answered st.
Proof.
  revert st. induction evs as [|ev evs IH]; intros st Hgate Hevs.
  - simpl. rewrite app_nil_r. now repeat split.
  - simpl in Hevs. apply andb_prop in Hevs as [Hev Hrest].
    rewrite steps_cons.
    destruct ev as [c [|]|r|dt]; try discriminate Hev.
    + destruct (IH (step st (Request c true))) as (H1 & H2 & H3 & H4 & H5);
        [simpl; now rewrite Hgate|exact Hrest|].
      simpl in *. rewrite Hgate in *. simpl in *.
      rewrite H1, H2, H3, H4, H5, <- app_assoc. now repeat split.
    + destruct (IH (step st (Wait dt))) as (H1 & H2 & H3 & H4 & H5);
        [exact Hgate|exact Hrest|].
      simpl in *. rewrite H1, H2, H3, H4, H5. now repeat split.
Qed.

(** From an open gate, the first forced request starts the one upstream
    call and the others attach to it. *)
Lemma requests_start_one_fetch evs st :
  inFlight (cache (sys st)) = false ->
  forallb forced_or_wait evs = true ->
  forced_callers evs <> [] ->
  inFlight (cache (sys (steps evs st))) = true
  /\ upstream_calls (steps evs st) = S (upstream_calls st)
  /\ running (steps evs st) = S (running st)
  /\ waiting (steps evs st) = waiting st ++ forced_callers evs
  /\ answered (steps evs st) = answered st.
Proof.
  revert st. induction evs as [|ev evs IH]; intros st Hgate Hevs Hsome;
    [contradiction|].
  simpl in Hevs. apply andb_prop in Hevs as [Hev Hrest].
  rewrite steps_cons.
  destruct ev as [c [|]|r|dt]; try discriminate Hev.
  - destruct (requests_attach evs (step st (Request c true))) as (H1 & H2 & H3 & H4 & H5);
      [simpl; now rewrite Hgate|exact Hrest|].
    simpl in *. rewrite Hgate in *. simpl in *.
    rewrite H1, H2, H3, H4, H5, <- app_assoc. now repeat split.
  - destruct (IH (step st (Wait dt))) as (H1 & H2 & H3 & H4 & H5);
      [exact Hgate|exact Hrest|exact Hsome|].
    simpl in *. rewrite H1, H2, H3, H4, H5. now repeat split.
Qed.

Lemma completion_opens_the_gate s r :
  inFlight (cache s) = true -> inFlight (cache (apply s (completion r))) = false.
Proof. intros Hgate. destruct r; simpl; now rewrite Hgate. Qed.

Lemma gate_holds_over_step st ev : gate_invariant st -> gate_invariant (step st ev).
Proof.
  intros [Hrun Hwait]. unfold gate_invariant.
  destruct ev as [c force|r|dt]; simpl.
  - destruct (if force then None else fresh staleness_threshold (sys st)) as [snap|].
    + now split.
    + destruct (inFlight (cache (sys st))) eqn:Hgate; simpl; rewrite ?Hgate; simpl.
      * split; [exact Hrun|discriminate].
      * split; [now rewrite Hrun|discriminate].
  - destruct (inFlight (cache (sys st))) eqn:Hgate; simpl.
    + rewrite (completion_opens_the_gate (sys st) r Hgate).
      split; [now rewrite Hrun|reflexivity].
    + rewrite Hgate. now split.
  - now split.
Qed.

Lemma gate_holds_over_steps evs st : gate_invariant st -> gate_invariant (steps evs st).
Proof.
  revert st. induction evs as [|ev evs IH]; intros st Hinv; [exact Hinv|].
  rewrite steps_cons. apply IH, gate_holds_over_step, Hinv.
Qed.

(** C5.  On the coordination of the specification, at most one
    upstream fetch is in flight at any time, whatever the callers do.  And
    when, with no fetch in flight, any number of callers (request handlers
    and the scheduled tick alike) force a refresh before the fetch
    concludes, exactly one upstream call is made for all of them, and when
    it concludes every one of them is handed the same outcome: the
    resulting snapshot, or the same failure. *)
Theorem concurrent_forced_refreshes_share_one_fetch :
  (forall evs,
     running (steps evs idle) <= 1
     /\ running (steps evs idle)
        = (if inFlight (cache (sys (steps evs idle))) then 1 else 0))
  /\ (forall st evs r,
        inFlight (cache (sys st)) = false ->
        waiting st = [] ->
        forallb forced_or_wait evs = true ->
        forced_callers evs <> [] ->
        let asked := steps evs st in
        let done := step asked (Concluded r) in
        upstream_calls asked = S (upstream_calls st)
        /\ waiting asked = forced_callers evs
        /\ answered asked = answered st
        /\ upstream_calls done = S (upstream_calls st)
        /\ answered done
           = answered st ++ map (fun c => (c, handed (sys done))) (forced_callers evs)
        /\ waiting done = []
        /\ inFlight (cache (sys done)) = false).
Proof.
  split.
  - intros evs.
    destruct (gate_holds_over_steps evs idle) as [Hrun _]; [now split|].
    split; [|exact Hrun].
    rewrite Hrun. destruct (inFlight _); lia.
  - intros st evs r Hgate Hwait Hevs Hsome asked done.
    destruct (requests_start_one_fetch evs st Hgate Hevs Hsome)
      as (Hflight & Hcalls & _ & Hwaiting & Hanswered).
    fold asked in Hflight, Hcalls, Hwaiting, Hanswered.
    rewrite Hwait in Hwaiting. simpl in Hwaiting.
    unfold done. simpl. rewrite Hflight. simpl.
    rewrite Hcalls, Hwaiting, Hanswered.
    repeat split.
    exact (completion_opens_the_gate (sys asked) r Hflight).
Qed.

End Coordination.

(** The theorem at two handlers and the scheduled tick forcing a refresh
    before the fetch concludes: one upstream call, and the three are handed
    the same snapshot. *)
Lemma concurrent_forced_refreshes_share_one_fetch_witness :
  let evs := [Request (Handler 1) true; Wait 1; Request Scheduled_tick true;
              Request (Handler 2) true; Wait 2] in
  let done := SingleFlight.step 30 (SingleFlight.steps 30 evs idle)
                (Concluded (Rates [("BTC-PERP", "0.0001")] "dex")) in
  upstream_calls done = 1
  /\ answered done
     = map (fun c => (c, Py.Returned (Snapshot [("BTC-PERP", "0.0001")] 3 "dex")))
           [Handler 1; Scheduled_tick; Handler 2].
Proof.
  intros evs done.
  destruct (concurrent_forced_refreshes_share_one_fetch 30) as [_ Hshare].
  destruct (Hshare idle evs (Rates [("BTC-PERP", "0.0001")] "dex")
                   eq_refl eq_refl eq_refl ltac:(discriminate))
    as (_ & _ & _ & Hcalls & Hanswered & _).
  split; [exact Hcalls|exact Hanswered].
Defined.

End SingleFlightFacts.
